(** * EEPROM.h (Arduino AVR EEPROM library, version 2.0)

    A shallow embedding of the proxy objects of
    [hardware/arduino/avr/libraries/EEPROM/EEPROM.h]:
    [EERef] (a cell reference), [EEBit] (a bit of a cell), [EEPtr] (a
    movable cursor) and the facade [EEPROMClass], together with the
    properties stated for them.

    Integers are modelled as [Z] with the widths of the AVR target written
    out: [uint8_t] is 8 bits, [int] is 16 bits (two's complement),
    [uint16_t] and data pointers are 16 bits. *)

From Stdlib Require Import ZArith List Lia Bool.
From Stdlib.Lists Require Import Finite.
Import ListNotations.
Local Open Scope Z_scope.

(** ** Machine integers of the target *)

(** Conversion to [uint8_t]. *)
Definition u8 (z : Z) : Z := z mod 256.

(** Conversion to [uint16_t], also the value of a 16-bit data pointer. *)
Definition u16 (z : Z) : Z := z mod 65536.

(** Conversion to [int]: 16 bits, two's complement. *)
Definition i16 (z : Z) : Z := (z + 32768) mod 65536 - 32768.

Definition is_u8 (z : Z) : Prop := 0 <= z < 256.

(** ** The device *)

(** One call of a primitive of [<avr/eeprom.h>]. *)
Inductive event : Type :=
| EvRead (p : Z)
| EvWrite (p : Z) (v : Z).

(** Modelled from the spec: the device behind [eeprom_read_byte] and
    [eeprom_write_byte], which [<avr/eeprom.h>] supplies.  It is a store
    of bytes indexed by the value of the 16-bit pointer the primitive
    receives; [trace] records every call of a primitive, oldest first, as
    the write-count hook of a mocked primitive would. *)
Record device : Type := mkDevice {
  cells : Z -> Z;
  trace : list event
}.

Definition store (m : Z -> Z) (p v : Z) : Z -> Z :=
  fun q => if q =? p then v else m q.

Definition is_write (e : event) : bool :=
  match e with EvWrite _ _ => true | EvRead _ => false end.

Definition is_read (e : event) : bool :=
  match e with EvRead _ => true | EvWrite _ _ => false end.

(** The physical writes of a trace, in order. *)
Definition writes (t : list event) : list event := filter is_write t.

Definition reads (t : list event) : list event := filter is_read t.

(** ** Computations on the device *)

(** An expression either has a value or is undefined (here: a division
    by zero). *)
Inductive outcome (A : Type) : Type :=
| Done (a : A)
| Undefined.
Arguments Done {A} a.
Arguments Undefined {A}.

Definition M (A : Type) : Type := device -> outcome (A * device).

Definition ret {A : Type} (a : A) : M A := fun d => Done (a, d).

Definition bind {A B : Type} (m : M A) (k : A -> M B) : M B :=
  fun d => match m d with
           | Done (a, d') => k a d'
           | Undefined => Undefined
           end.

Definition lift {A : Type} (o : outcome A) : M A :=
  fun d => match o with
           | Done a => Done (a, d)
           | Undefined => Undefined
           end.

Notation "x <- m ;; k" := (bind m (fun x => k))
  (at level 61, m at next level, right associativity).
Notation "m ;;; k" := (bind m (fun _ => k))
  (at level 61, right associativity).

(** Modelled from the spec: [readByte], that is [eeprom_read_byte( p )]:
    the byte stored at [p]; storage is not changed. *)
Definition eeprom_read_byte (p : Z) : M Z :=
  fun d => Done (cells d p, mkDevice (cells d) (trace d ++ [EvRead p])).

(** Modelled from the spec: [writeByte], that is
    [eeprom_write_byte( p, v )]: one write cycle on the cell at [p]. *)
Definition eeprom_write_byte (p v : Z) : M unit :=
  fun d => Done (tt, mkDevice (store (cells d) p v) (trace d ++ [EvWrite p v])).

(** The byte a cell holds, without touching the device. *)
Definition peek (d : device) (index : Z) : Z := cells d (u16 index).

(** ** Arithmetic in [int]

    The operands of the compound assignments are [uint8_t] values promoted
    to [int].  A result outside the range of [int] is reduced to it; the
    byte that is stored, its low eight bits, does not depend on that.
    Division and remainder truncate towards zero and have no value for a
    zero divisor. *)
Inductive binop : Type :=
| Add | Sub | Mul | Div | Xor | Rem | And | Or | Shl | Shr.

Definition eval_binop (op : binop) (a b : Z) : outcome Z :=
  match op with
  | Add => Done (i16 (a + b))
  | Sub => Done (i16 (a - b))
  | Mul => Done (i16 (a * b))
  | Div => if b =? 0 then Undefined else Done (i16 (Z.quot a b))
  | Xor => Done (Z.lxor a b)
  | Rem => if b =? 0 then Undefined else Done (i16 (Z.rem a b))
  | And => Done (Z.land a b)
  | Or => Done (Z.lor a b)
  | Shl => Done (i16 (Z.shiftl a b))
  | Shr => Done (Z.shiftr a b)
  end.

(** ** EERef: a reference to one cell *)

Module EERef.

(** [int index], the index of the current cell. *)
Record t : Type := mk { index : Z }.

(** The cast of [index] to a pointer to [uint8_t]. *)
Definition cell_ptr (r : t) : Z := u16 (index r).

(** [uint8_t operator*() const] *)
Definition deref (r : t) : M Z := eeprom_read_byte (cell_ptr r).

(** [operator const uint8_t() const] *)
Definition to_uint8 (r : t) : M Z := deref r.

(** [EERef &operator=( uint8_t in )] *)
Definition assign (r : t) (v : Z) : M t :=
  eeprom_write_byte (cell_ptr r) v ;;; ret r.

(** [EERef &operator=( const EERef &ref )] *)
Definition assign_ref (r ref : t) : M t :=
  v <- deref ref ;; assign r v.

(** The shape shared by the ten compound assignments,
    [return *this = **this <op> in;]: the [int] result is converted to the
    [uint8_t] parameter of [operator=]. *)
Definition compound (op : binop) (r : t) (n : Z) : M t :=
  v <- deref r ;;
  x <- lift (eval_binop op v n) ;;
  assign r (u8 x).

Definition add_assign : t -> Z -> M t := compound Add.
Definition sub_assign : t -> Z -> M t := compound Sub.
Definition mul_assign : t -> Z -> M t := compound Mul.
Definition div_assign : t -> Z -> M t := compound Div.
Definition xor_assign : t -> Z -> M t := compound Xor.
Definition rem_assign : t -> Z -> M t := compound Rem.
Definition and_assign : t -> Z -> M t := compound And.
Definition or_assign : t -> Z -> M t := compound Or.
Definition shl_assign : t -> Z -> M t := compound Shl.
Definition shr_assign : t -> Z -> M t := compound Shr.

(** [EERef &update( uint8_t in )] *)
Definition update (r : t) (v : Z) : M t :=
  cur <- to_uint8 r ;;
  if negb (v =? cur) then assign r v else ret r.

(** [EERef& operator++()] *)
Definition pre_incr (r : t) : M t := add_assign r 1.

(** [EERef& operator--()] *)
Definition pre_decr (r : t) : M t := sub_assign r 1.

(** [uint8_t operator++ (int)] *)
Definition post_incr (r : t) : M Z :=
  old <- deref r ;; pre_incr r ;;; ret old.

(** [uint8_t operator-- (int)] *)
Definition post_decr (r : t) : M Z :=
  old <- deref r ;; pre_decr r ;;; ret old.

End EERef.

(** ** EEBit: a reference to one bit of a cell *)

Module EEBit.

Record t : Type := mk { ref : EERef.t; mask : Z }.

(** [0x01 << bidx], converted to the [uint8_t] member [mask]. *)
Definition bit_mask (bidx : Z) : Z := u8 (i16 (Z.shiftl 1 bidx)).

(** [EEBit( int index, uint8_t bidx )] *)
Definition make (index bidx : Z) : t := mk (EERef.mk index) (bit_mask bidx).

(** [EEBit &setIndex( uint8_t bidx )] *)
Definition setIndex (b : t) (bidx : Z) : t := mk (ref b) (bit_mask bidx).

(** [operator const bool() const] *)
Definition to_bool (b : t) : M bool :=
  v <- EERef.to_uint8 (ref b) ;; ret (negb (Z.land v (mask b) =? 0)).

(** [EEBit &operator =( const bool &copy )] *)
Definition assign (b : t) (copy : bool) : M t :=
  (if copy then EERef.or_assign (ref b) (mask b)
   else EERef.and_assign (ref b) (u8 (i16 (Z.lnot (mask b))))) ;;;
  ret b.

(** [EEBit &operator =( const EEBit &copy )] *)
Definition assign_bit (b copy : t) : M t :=
  c <- to_bool copy ;; assign b c.

(** [EEBit &set()] *)
Definition set (b : t) : M t := assign b true.

(** [EEBit &clear()] *)
Definition clear (b : t) : M t := assign b false.

End EEBit.

(** [EEBit EERef::operator[]( const int bidx )], deferred until [EEBit] is
    available; [bidx] is converted to the [uint8_t] parameter of the
    constructor. *)
Definition EERef_bit (r : EERef.t) (bidx : Z) : EEBit.t :=
  EEBit.make (EERef.index r) (u8 bidx).

(** ** EEPtr: a cursor over the cells *)

Module EEPtr.

Record t : Type := mk { index : Z }.

(** [operator const int() const] *)
Definition to_int (p : t) : Z := index p.

(** [EEPtr &operator=( int in )] *)
Definition assign (p : t) (n : Z) : t := mk n.

(** [EERef operator[]( int idx )] *)
Definition at_ (p : t) (idx : Z) : EERef.t := EERef.mk (i16 (index p + idx)).

(** [EERef operator*()] *)
Definition deref (p : t) : EERef.t := EERef.mk (index p).

(** [bool operator!=( const EEPtr &ptr )] *)
Definition ne (p ptr : t) : bool := negb (index p =? index ptr).

(** [EEPtr& operator+=( int idx )] *)
Definition add_assign (p : t) (idx : Z) : t := mk (i16 (index p + idx)).

(** [EEPtr& operator-=( int idx )] *)
Definition sub_assign (p : t) (idx : Z) : t := mk (i16 (index p - idx)).

(** [EEPtr& operator++()] *)
Definition pre_incr (p : t) : t := mk (i16 (index p + 1)).

(** [EEPtr& operator--()] *)
Definition pre_decr (p : t) : t := mk (i16 (index p - 1)).

(** [EEPtr operator++ (int)]: the pointer returned, then the pointer
    moved. *)
Definition post_incr (p : t) : t * t := (mk (index p), mk (i16 (index p + 1))).

(** [EEPtr operator-- (int)] *)
Definition post_decr (p : t) : t * t := (mk (index p), mk (i16 (index p - 1))).

End EEPtr.

(** ** EEPROMClass: the whole EEPROM space *)

Module EEPROMClass.

(** [EERef operator[]( EERef ref )] *)
Definition subscript (ref : EERef.t) : EERef.t := ref.

(** [EERef read( EERef ref )] *)
Definition read (ref : EERef.t) : EERef.t := ref.

(** [void write( EERef ref, uint8_t val )] *)
Definition write (ref : EERef.t) (val : Z) : M unit :=
  EERef.assign ref val ;;; ret tt.

(** [void update( EERef ref, uint8_t val )] *)
Definition update (ref : EERef.t) (val : Z) : M unit :=
  EERef.update ref val ;;; ret tt.

(** [EEBit readBit( EERef ref, uint8_t bidx )] *)
Definition readBit (ref : EERef.t) (bidx : Z) : EEBit.t := EERef_bit ref bidx.

(** [void writeBit( EERef ref, uint8_t bidx, const bool val )] *)
Definition writeBit (ref : EERef.t) (bidx : Z) (val : bool) : M unit :=
  EEBit.assign (EERef_bit ref bidx) val ;;; ret tt.

Section Capacity.

(** Modelled from the spec: [E2END], the last cell of the device, which
    [<avr/io.h>] defines per device ([storageSize] is [E2END + 1]). *)
Variable E2END : Z.

(** [uint16_t length()] *)
Definition length : Z := u16 (i16 (E2END + 1)).

(** [EEPtr begin()] *)
Definition begin : EEPtr.t := EEPtr.mk 0.

(** [EEPtr end()]: [length()] converted to the [int] of the
    constructor. *)
Definition end_ : EEPtr.t := EEPtr.mk (i16 length).

End Capacity.

(** The loop of [get],
    [for( int count = sizeof(T) ; count ; --count, ++ptr ) *dest++ = *ptr;],
    one round per byte of the destination; the result is the bytes written
    through [dest], lowest address first. *)
Fixpoint get_loop (ptr : EEPtr.t) (dest : list Z) : M (list Z) :=
  match dest with
  | [] => ret []
  | _ :: dest' =>
      v <- EERef.to_uint8 (EEPtr.deref ptr) ;;
      rest <- get_loop (EEPtr.pre_incr ptr) dest' ;;
      ret (v :: rest)
  end.

(** [template< typename T > T &get( EEPtr ptr, T &t )].  The object [t] is
    its [sizeof(T)] bytes, lowest address first. *)
Definition get (ptr : EEPtr.t) (t : list Z) : M (list Z) := get_loop ptr t.

(** The loop of [put],
    [for( int count = sizeof(T) ; count ; --count, ++ptr )] with the body
    [ptr.operator*().update( *src++ )],
    one round per byte of the source. *)
Fixpoint put_loop (ptr : EEPtr.t) (src : list Z) : M unit :=
  match src with
  | [] => ret tt
  | b :: src' =>
      EERef.update (EEPtr.deref ptr) b ;;;
      put_loop (EEPtr.pre_incr ptr) src'
  end.

(** [template< typename T > const T &put( EEPtr ptr, const T &t )] *)
Definition put (ptr : EEPtr.t) (t : list Z) : M (list Z) :=
  put_loop ptr t ;;; ret t.

End EEPROMClass.

(** The range-based loop over the facade,
    [for( EEPtr p = begin() ; p != end() ; ++p )], collecting the address
    of the cell [*p] of every round. *)
Fixpoint range_for (fuel : nat) (p last : EEPtr.t) : option (list Z) :=
  if EEPtr.ne p last then
    match fuel with
    | O => None
    | S fuel' =>
        option_map (cons (EERef.cell_ptr (EEPtr.deref p)))
                   (range_for fuel' (EEPtr.pre_incr p) last)
    end
  else Some [].

(** A cell read [n] times in a row through the facade. *)
Fixpoint read_times (n : nat) (ref : EERef.t) : M (list Z) :=
  match n with
  | O => ret []
  | S n' =>
      v <- EERef.to_uint8 (EEPROMClass.read ref) ;;
      rest <- read_times n' ref ;;
      ret (v :: rest)
  end.

(** ** Blocks and bits, as the properties below name them *)

(** The addresses of the [n] cells a pointer walks over when it is
    incremented [n] times, the one it starts at first. *)
Fixpoint cells_from (ptr : EEPtr.t) (n : nat) : list Z :=
  match n with
  | O => []
  | S n' =>
      EERef.cell_ptr (EEPtr.deref ptr) :: cells_from (EEPtr.pre_incr ptr) n'
  end.

(** A cell and the byte meant for it: does the cell hold another byte? *)
Definition differs (m : Z -> Z) (pb : Z * Z) : bool :=
  negb (snd pb =? m (fst pb)).

Definition write_of (pb : Z * Z) : event := EvWrite (fst pb) (snd pb).

(** The byte [writeBit] stores over a cell holding [v]. *)
Definition with_bit (v i : Z) (b : bool) : Z :=
  if b then u8 (Z.lor v (2 ^ i))
  else u8 (Z.land v (u8 (i16 (Z.lnot (2 ^ i))))).

(** The device [d1] differs from [d] in the cell at [p] at most. *)
Definition touches_only (p : Z) (d d1 : device) : Prop :=
  forall q : Z, q <> p -> cells d1 q = cells d q.

(** ** Machine integers *)

Lemma u8_range (z : Z) : is_u8 (u8 z).
Proof. unfold is_u8, u8. apply Z.mod_pos_bound. lia. Qed.

Lemma u8_small (z : Z) : is_u8 z -> u8 z = z.
Proof. unfold is_u8, u8. intros H. apply Z.mod_small. exact H. Qed.

Lemma i16_congruent (z : Z) : i16 z = z + - ((z + 32768) / 65536) * 65536.
Proof. unfold i16. rewrite (Z.mod_eq (z + 32768) 65536) by lia. ring. Qed.

Lemma u8_i16 (z : Z) : u8 (i16 z) = u8 z.
Proof.
  rewrite i16_congruent. unfold u8.
  replace (- ((z + 32768) / 65536) * 65536)
    with ((- ((z + 32768) / 65536) * 256) * 256) by ring.
  apply Z.mod_add. lia.
Qed.

Lemma u16_i16 (z : Z) : u16 (i16 z) = u16 z.
Proof. rewrite i16_congruent. unfold u16. apply Z.mod_add. lia. Qed.

Lemma i16_small (z : Z) : -32768 <= z < 32768 -> i16 z = z.
Proof. unfold i16. intros H. rewrite Z.mod_small by lia. lia. Qed.

Lemma u16_small (z : Z) : 0 <= z < 65536 -> u16 z = z.
Proof. unfold u16. intros H. apply Z.mod_small. exact H. Qed.

(** ** The store *)

Lemma store_same (m : Z -> Z) (p v : Z) : store m p v p = v.
Proof. unfold store. rewrite Z.eqb_refl. reflexivity. Qed.

Lemma store_other (m : Z -> Z) (p q v : Z) : q <> p -> store m p v q = m q.
Proof. unfold store. intros H. apply Z.eqb_neq in H. rewrite H. reflexivity. Qed.

Lemma writes_app (t1 t2 : list event) : writes (t1 ++ t2) = writes t1 ++ writes t2.
Proof. unfold writes. apply filter_app. Qed.

Lemma reads_app (t1 t2 : list event) : reads (t1 ++ t2) = reads t1 ++ reads t2.
Proof. unfold reads. apply filter_app. Qed.

(** ** Single operations of a cell, run on a device *)

Lemma deref_run (r : EERef.t) (d : device) :
  EERef.deref r d =
  Done (cells d (EERef.cell_ptr r),
        mkDevice (cells d) (trace d ++ [EvRead (EERef.cell_ptr r)])).
Proof. reflexivity. Qed.

Lemma assign_run (r : EERef.t) (v : Z) (d : device) :
  EERef.assign r v d =
  Done (r, mkDevice (store (cells d) (EERef.cell_ptr r) v)
                    (trace d ++ [EvWrite (EERef.cell_ptr r) v])).
Proof. reflexivity. Qed.

Lemma update_run_same (r : EERef.t) (v : Z) (d : device) :
  cells d (EERef.cell_ptr r) = v ->
  EERef.update r v d =
  Done (r, mkDevice (cells d) (trace d ++ [EvRead (EERef.cell_ptr r)])).
Proof.
  intros H. unfold EERef.update, EERef.to_uint8, bind.
  rewrite deref_run, H, Z.eqb_refl. reflexivity.
Qed.

Lemma update_run_diff (r : EERef.t) (v : Z) (d : device) :
  cells d (EERef.cell_ptr r) <> v ->
  EERef.update r v d =
  Done (r, mkDevice (store (cells d) (EERef.cell_ptr r) v)
                    (trace d ++ [EvRead (EERef.cell_ptr r);
                                 EvWrite (EERef.cell_ptr r) v])).
Proof.
  intros H. unfold EERef.update, EERef.to_uint8, bind.
  rewrite deref_run.
  assert (E : (v =? cells d (EERef.cell_ptr r)) = false)
    by (apply Z.eqb_neq; congruence).
  rewrite E. cbn [negb]. rewrite assign_run. cbn [cells trace].
  rewrite <- app_assoc. reflexivity.
Qed.

Lemma compound_run (op : binop) (r : EERef.t) (n x : Z) (d : device) :
  eval_binop op (cells d (EERef.cell_ptr r)) n = Done x ->
  EERef.compound op r n d =
  Done (r, mkDevice (store (cells d) (EERef.cell_ptr r) (u8 x))
                    (trace d ++ [EvRead (EERef.cell_ptr r);
                                 EvWrite (EERef.cell_ptr r) (u8 x)])).
Proof.
  intros H. unfold EERef.compound, bind, lift.
  rewrite deref_run, H, assign_run. cbn [cells trace].
  rewrite <- app_assoc. reflexivity.
Qed.

Lemma compound_undefined (op : binop) (r : EERef.t) (n : Z) (d : device) :
  eval_binop op (cells d (EERef.cell_ptr r)) n = Undefined ->
  EERef.compound op r n d = Undefined.
Proof.
  intros H. unfold EERef.compound, bind, lift.
  rewrite deref_run, H. reflexivity.
Qed.

Lemma read_times_run (n : nat) (ref : EERef.t) (d : device) :
  read_times n ref d =
  Done (repeat (cells d (EERef.cell_ptr ref)) n,
        mkDevice (cells d) (trace d ++ repeat (EvRead (EERef.cell_ptr ref)) n)).
Proof.
  revert d. induction n as [|n IH]; intros d.
  - cbn. rewrite app_nil_r. destruct d; reflexivity.
  - cbn [read_times]. unfold bind, EERef.to_uint8, EEPROMClass.read.
    rewrite deref_run, IH. cbn [cells trace repeat].
    rewrite <- app_assoc. reflexivity.
Qed.

(** ** Properties of single cells *)

(** C7: for every address [a] and byte [v], [write(a, v)] followed by
    [read(a)] returns [v]; a read leaves the storage as it is, and a cell
    read any number [n] of times in a row returns the byte currently
    stored every time, each read reaching the primitive. *)
Theorem write_then_read (d : device) (a v : Z) :
  (EEPROMClass.write (EERef.mk a) v ;;;
   EERef.to_uint8 (EEPROMClass.read (EERef.mk a))) d =
    Done (v, mkDevice (store (cells d) (u16 a) v)
                      (trace d ++ [EvWrite (u16 a) v; EvRead (u16 a)]))
  /\ forall n : nat,
      read_times n (EERef.mk a) d =
      Done (repeat (peek d a) n,
            mkDevice (cells d) (trace d ++ repeat (EvRead (u16 a)) n)).
Proof.
  split.
  - unfold EEPROMClass.write, EEPROMClass.read, EERef.to_uint8, bind.
    rewrite assign_run. unfold ret. rewrite deref_run.
    cbn [cells trace EERef.cell_ptr EERef.index].
    rewrite store_same, <- app_assoc. reflexivity.
  - intros n. apply read_times_run.
Qed.

(** C1: [update(a, v)] followed by [read(a)] yields [v]; when the cell
    already holds [v], [update(a, v)] leaves the storage as it is and
    issues no physical write (only its one read); [write(a, v)] issues
    exactly one physical write whatever the cell holds. *)
Theorem update_then_read (d : device) (a v : Z) :
  (exists d1 d2,
      EEPROMClass.update (EERef.mk a) v d = Done (tt, d1)
      /\ EERef.to_uint8 (EEPROMClass.read (EERef.mk a)) d1 = Done (v, d2))
  /\ (peek d a = v ->
      EEPROMClass.update (EERef.mk a) v d =
        Done (tt, mkDevice (cells d) (trace d ++ [EvRead (u16 a)]))
      /\ EERef.update (EERef.mk a) v d =
        Done (EERef.mk a, mkDevice (cells d) (trace d ++ [EvRead (u16 a)]))
      /\ writes (trace d ++ [EvRead (u16 a)]) = writes (trace d))
  /\ EEPROMClass.write (EERef.mk a) v d =
       Done (tt, mkDevice (store (cells d) (u16 a) v)
                          (trace d ++ [EvWrite (u16 a) v]))
  /\ writes (trace d ++ [EvWrite (u16 a) v]) =
       writes (trace d) ++ [EvWrite (u16 a) v].
Proof.
  split; [|split; [intros H; split; [|split]|split]].
  - unfold EEPROMClass.update, EEPROMClass.read, EERef.to_uint8, bind.
    destruct (Z.eq_dec (cells d (EERef.cell_ptr (EERef.mk a))) v) as [E|E].
    + rewrite (update_run_same _ _ _ E). do 2 eexists. split; [reflexivity|].
      rewrite deref_run. cbn [cells]. rewrite E. reflexivity.
    + rewrite (update_run_diff _ _ _ E). do 2 eexists. split; [reflexivity|].
      rewrite deref_run. cbn [cells]. rewrite store_same. reflexivity.
  - unfold EEPROMClass.update, bind.
    rewrite (update_run_same (EERef.mk a) v d H). reflexivity.
  - apply (update_run_same (EERef.mk a) v d H).
  - rewrite writes_app. cbn. apply app_nil_r.
  - reflexivity.
  - rewrite writes_app. reflexivity.
Qed.

(** A cell that already holds [0xAA] is updated with [0xAA]. *)
Lemma update_then_read_witness :
  let d := mkDevice (fun _ => 170) [] in
  peek d 10 = 170
  /\ EEPROMClass.update (EERef.mk 10) 170 d =
       Done (tt, mkDevice (cells d) [EvRead 10])
  /\ EEPROMClass.write (EERef.mk 10) 170 d =
       Done (tt, mkDevice (store (cells d) 10 170) [EvWrite 10 170]).
Proof.
  intros d. split; [reflexivity|].
  destruct (update_then_read d 10 170) as (_ & Hsame & Hwrite & _).
  destruct (Hsame eq_refl) as (Hupd & _).
  split; [exact Hupd | exact Hwrite].
Defined.

(** C5: on a cell holding [v], each of the ten compound assignments
    with operand [n] is [write(read() <op> n)]: [+=] writes [v + n], [-=]
    [v - n], [*=] [v * n], [/=] the quotient and [%=] the remainder (for
    [n] not 0), [^=], [&=], [|=] the bitwise exclusive or, and, or, [<<=]
    and [>>=] the shifted value, each converted to [uint8_t].  Every one
    issues exactly one read of the cell followed by exactly one physical
    write of that byte, also when it is the byte already stored; the
    conditional [update] is not involved. *)
Theorem compound_assign_reads_then_writes (r : EERef.t) (n : Z) (d : device) :
  let p := EERef.cell_ptr r in
  let v := cells d p in
  let rw := fun x : Z =>
    Done (r, mkDevice (store (cells d) p (u8 x))
                      (trace d ++ [EvRead p; EvWrite p (u8 x)])) in
  let write_of_read := fun f : Z -> Z =>
    (b <- EERef.to_uint8 (EEPROMClass.read r) ;;
     EEPROMClass.write r (u8 (f b)) ;;; ret r) d in
  (EERef.add_assign r n d = rw (v + n)
   /\ EERef.sub_assign r n d = rw (v - n)
   /\ EERef.mul_assign r n d = rw (v * n)
   /\ (n <> 0 -> EERef.div_assign r n d = rw (Z.quot v n))
   /\ EERef.xor_assign r n d = rw (Z.lxor v n)
   /\ (n <> 0 -> EERef.rem_assign r n d = rw (Z.rem v n))
   /\ EERef.and_assign r n d = rw (Z.land v n)
   /\ EERef.or_assign r n d = rw (Z.lor v n)
   /\ EERef.shl_assign r n d = rw (Z.shiftl v n)
   /\ EERef.shr_assign r n d = rw (Z.shiftr v n))
  /\ (forall f : Z -> Z, write_of_read f = rw (f v))
  /\ forall x : Z,
      reads (trace d ++ [EvRead p; EvWrite p (u8 x)]) =
        reads (trace d) ++ [EvRead p]
      /\ writes (trace d ++ [EvRead p; EvWrite p (u8 x)]) =
        writes (trace d) ++ [EvWrite p (u8 x)].
Proof.
  intros p v rw write_of_read. unfold rw.
  split; [|split].
  - repeat match goal with |- _ /\ _ => split end.
    + unfold EERef.add_assign.
      rewrite (compound_run Add r n (i16 (v + n))) by reflexivity.
      rewrite u8_i16. reflexivity.
    + unfold EERef.sub_assign.
      rewrite (compound_run Sub r n (i16 (v - n))) by reflexivity.
      rewrite u8_i16. reflexivity.
    + unfold EERef.mul_assign.
      rewrite (compound_run Mul r n (i16 (v * n))) by reflexivity.
      rewrite u8_i16. reflexivity.
    + intros Hn. apply Z.eqb_neq in Hn. unfold EERef.div_assign.
      rewrite (compound_run Div r n (i16 (Z.quot v n)))
        by (cbn [eval_binop]; rewrite Hn; reflexivity).
      rewrite u8_i16. reflexivity.
    + unfold EERef.xor_assign.
      apply (compound_run Xor r n (Z.lxor v n)). reflexivity.
    + intros Hn. apply Z.eqb_neq in Hn. unfold EERef.rem_assign.
      rewrite (compound_run Rem r n (i16 (Z.rem v n)))
        by (cbn [eval_binop]; rewrite Hn; reflexivity).
      rewrite u8_i16. reflexivity.
    + unfold EERef.and_assign.
      apply (compound_run And r n (Z.land v n)). reflexivity.
    + unfold EERef.or_assign.
      apply (compound_run Or r n (Z.lor v n)). reflexivity.
    + unfold EERef.shl_assign.
      rewrite (compound_run Shl r n (i16 (Z.shiftl v n))) by reflexivity.
      rewrite u8_i16. reflexivity.
    + unfold EERef.shr_assign.
      apply (compound_run Shr r n (Z.shiftr v n)). reflexivity.
  - intros f. unfold write_of_read, EEPROMClass.write, EEPROMClass.read,
      EERef.to_uint8, bind.
    rewrite deref_run, assign_run. cbn [cells trace ret].
    rewrite <- app_assoc. reflexivity.
  - intros x. split; [rewrite reads_app | rewrite writes_app]; reflexivity.
Qed.

(** A cell holding 200 with operand 7: [+=] writes 207, [*=] writes
    [1400 mod 256 = 120], [/=] writes 28, [%=] writes 4, [<<=] writes
    [25600 mod 256 = 0]; and [|= 0] on it writes the 200 it already
    holds. *)
Lemma compound_assign_reads_then_writes_witness :
  let d := mkDevice (fun _ => 200) [] in
  let wrote := fun x : Z =>
    Done (EERef.mk 7, mkDevice (store (cells d) 7 x) [EvRead 7; EvWrite 7 x]) in
  7 <> 0
  /\ EERef.add_assign (EERef.mk 7) 7 d = wrote 207
  /\ EERef.mul_assign (EERef.mk 7) 7 d = wrote 120
  /\ EERef.div_assign (EERef.mk 7) 7 d = wrote 28
  /\ EERef.rem_assign (EERef.mk 7) 7 d = wrote 4
  /\ EERef.shl_assign (EERef.mk 7) 7 d = wrote 0
  /\ EERef.or_assign (EERef.mk 7) 0 d = wrote 200.
Proof.
  intros d wrote.
  assert (H7 : 7 <> 0) by discriminate.
  destruct (compound_assign_reads_then_writes (EERef.mk 7) 7 d)
    as ((Hadd & _ & Hmul & Hdiv & _ & Hrem & _ & _ & Hshl & _) & _).
  destruct (compound_assign_reads_then_writes (EERef.mk 7) 0 d)
    as ((_ & _ & _ & _ & _ & _ & _ & Hor & _) & _).
  split; [exact H7|]. split; [exact Hadd|]. split; [exact Hmul|].
  split; [exact (Hdiv H7)|]. split; [exact (Hrem H7)|].
  split; [exact Hshl | exact Hor].
Defined.

(** C8: postfix increment returns the byte stored before the operation
    and leaves the cell holding that byte plus one modulo 256; on a cell
    holding 5 it evaluates to 5 and the cell then reads 6; postfix
    decrement returns the byte stored before and leaves it minus one
    modulo 256. *)
Theorem postfix_returns_old_value (r : EERef.t) (d : device) :
  let p := EERef.cell_ptr r in
  let v := cells d p in
  EERef.post_incr r d =
    Done (v, mkDevice (store (cells d) p ((v + 1) mod 256))
                      (trace d ++ [EvRead p; EvRead p;
                                   EvWrite p ((v + 1) mod 256)]))
  /\ EERef.post_decr r d =
    Done (v, mkDevice (store (cells d) p ((v - 1) mod 256))
                      (trace d ++ [EvRead p; EvRead p;
                                   EvWrite p ((v - 1) mod 256)]))
  /\ (v = 5 ->
      exists d1, EERef.post_incr r d = Done (5, d1)
                 /\ peek d1 (EERef.index r) = 6).
Proof.
  intros p v.
  assert (Hinc : EERef.post_incr r d =
    Done (v, mkDevice (store (cells d) p ((v + 1) mod 256))
                      (trace d ++ [EvRead p; EvRead p;
                                   EvWrite p ((v + 1) mod 256)]))).
  { unfold EERef.post_incr, EERef.pre_incr, EERef.add_assign, bind.
    rewrite deref_run.
    rewrite (compound_run Add r 1 (i16 (v + 1))) by reflexivity.
    cbn [cells trace ret]. rewrite u8_i16, <- app_assoc. reflexivity. }
  split; [exact Hinc|]. split.
  - unfold EERef.post_decr, EERef.pre_decr, EERef.sub_assign, bind.
    rewrite deref_run.
    rewrite (compound_run Sub r 1 (i16 (v - 1))) by reflexivity.
    cbn [cells trace ret]. rewrite u8_i16, <- app_assoc. reflexivity.
  - intros Hv. eexists. split.
    + rewrite Hinc, Hv. reflexivity.
    + unfold peek. cbn [cells]. fold (EERef.cell_ptr r). fold p.
      rewrite store_same. reflexivity.
Qed.

(** [x++] on a cell initialised to 5. *)
Lemma postfix_returns_old_value_witness :
  let d := mkDevice (fun _ => 5) [] in
  cells d (EERef.cell_ptr (EERef.mk 0)) = 5
  /\ exists d1, EERef.post_incr (EERef.mk 0) d = Done (5, d1)
                /\ peek d1 0 = 6.
Proof.
  intros d. split; [reflexivity|].
  exact (proj2 (proj2 (postfix_returns_old_value (EERef.mk 0) d)) eq_refl).
Defined.

(** C9: [c1 = c2] on two cell references reads the cell of [c2] once and
    writes that byte to the cell of [c1] once; the reference returned is
    [c1] itself, its index untouched; afterwards the cell of [c1] holds
    what the cell of [c2] held, and the cell of [c2] holds what it held
    before. *)
Theorem copy_assign_copies_byte (c1 c2 : EERef.t) (d : device) :
  exists d1,
    EERef.assign_ref c1 c2 d = Done (c1, d1)
    /\ trace d1 = trace d ++ [EvRead (EERef.cell_ptr c2);
                              EvWrite (EERef.cell_ptr c1)
                                      (peek d (EERef.index c2))]
    /\ peek d1 (EERef.index c1) = peek d (EERef.index c2)
    /\ peek d1 (EERef.index c2) = peek d (EERef.index c2).
Proof.
  eexists. split; [|split; [|split]].
  - unfold EERef.assign_ref, bind. rewrite deref_run, assign_run.
    cbn [cells trace]. rewrite <- app_assoc. reflexivity.
  - reflexivity.
  - unfold peek. cbn [cells]. apply store_same.
  - unfold peek. cbn [cells]. unfold store, EERef.cell_ptr.
    destruct (u16 (EERef.index c2) =? u16 (EERef.index c1)); reflexivity.
Qed.

(** C10: [/=] and [%=] divide without a guard.  On a cell holding the
    byte [v] and for a nonzero byte [n], [/=] stores [v / n] and [%=]
    stores [v mod n]; for every nonzero [n] the expression has a value;
    for [n = 0] it has none, and nothing is written or reported. *)
Theorem div_rem_assign_unguarded (r : EERef.t) (n : Z) (d : device) :
  let p := EERef.cell_ptr r in
  let v := cells d p in
  (is_u8 v -> is_u8 n -> n <> 0 ->
   EERef.div_assign r n d =
     Done (r, mkDevice (store (cells d) p (v / n))
                       (trace d ++ [EvRead p; EvWrite p (v / n)]))
   /\ EERef.rem_assign r n d =
     Done (r, mkDevice (store (cells d) p (v mod n))
                       (trace d ++ [EvRead p; EvWrite p (v mod n)])))
  /\ (n <> 0 ->
      EERef.div_assign r n d <> Undefined
      /\ EERef.rem_assign r n d <> Undefined)
  /\ EERef.div_assign r 0 d = Undefined
  /\ EERef.rem_assign r 0 d = Undefined.
Proof.
  intros p v. split; [|split; [|split]].
  - intros Hv Hn Hn0. unfold is_u8 in Hv, Hn.
    assert (Hq : 0 <= v / n < 256).
    { split; [apply Z.div_pos; lia|].
      apply Z.div_lt_upper_bound; nia. }
    assert (Hm : 0 <= v mod n < 256).
    { pose proof (Z.mod_pos_bound v n). lia. }
    split.
    + unfold EERef.div_assign.
      rewrite (compound_run Div r n (i16 (Z.quot v n))).
      * rewrite u8_i16, Z.quot_div_nonneg by lia.
        rewrite (u8_small (v / n)) by exact Hq. reflexivity.
      * cbn [eval_binop]. apply Z.eqb_neq in Hn0. rewrite Hn0. reflexivity.
    + unfold EERef.rem_assign.
      rewrite (compound_run Rem r n (i16 (Z.rem v n))).
      * rewrite u8_i16, Z.rem_mod_nonneg by lia.
        rewrite (u8_small (v mod n)) by exact Hm. reflexivity.
      * cbn [eval_binop]. apply Z.eqb_neq in Hn0. rewrite Hn0. reflexivity.
  - intros Hn0. apply Z.eqb_neq in Hn0. split.
    + unfold EERef.div_assign.
      rewrite (compound_run Div r n (i16 (Z.quot v n)));
        [discriminate | cbn [eval_binop]; rewrite Hn0; reflexivity].
    + unfold EERef.rem_assign.
      rewrite (compound_run Rem r n (i16 (Z.rem v n)));
        [discriminate | cbn [eval_binop]; rewrite Hn0; reflexivity].
  - apply compound_undefined. reflexivity.
  - apply compound_undefined. reflexivity.
Qed.

(** A cell holding 200 divided by 7, and its remainder. *)
Lemma div_rem_assign_unguarded_witness :
  let d := mkDevice (fun _ => 200) [] in
  is_u8 200 /\ is_u8 7 /\ 7 <> 0
  /\ EERef.div_assign (EERef.mk 3) 7 d =
       Done (EERef.mk 3, mkDevice (store (cells d) 3 28)
                                  [EvRead 3; EvWrite 3 28])
  /\ EERef.rem_assign (EERef.mk 3) 7 d =
       Done (EERef.mk 3, mkDevice (store (cells d) 3 4)
                                  [EvRead 3; EvWrite 3 4]).
Proof.
  intros d.
  assert (H200 : is_u8 200) by (unfold is_u8; lia).
  assert (H7 : is_u8 7) by (unfold is_u8; lia).
  assert (H0 : 7 <> 0) by lia.
  split; [exact H200|]. split; [exact H7|]. split; [exact H0|].
  exact (proj1 (div_rem_assign_unguarded (EERef.mk 3) 7 d) H200 H7 H0).
Defined.

(** ** Bits of a byte *)

Lemma u8_testbit (z j : Z) : 0 <= j < 8 -> Z.testbit (u8 z) j = Z.testbit z j.
Proof.
  intros H. unfold u8. change 256 with (2 ^ 8).
  apply Z.mod_pow2_bits_low. lia.
Qed.

Lemma bit_mask_pow2 (i : Z) : 0 <= i <= 7 -> EEBit.bit_mask (u8 i) = 2 ^ i.
Proof.
  intros H. rewrite (u8_small i) by (unfold is_u8; lia).
  unfold EEBit.bit_mask. rewrite u8_i16, Z.shiftl_1_l.
  apply u8_small. unfold is_u8. split; [apply Z.pow_nonneg; lia|].
  change 256 with (2 ^ 8). apply Z.pow_lt_mono_r; lia.
Qed.

Lemma land_pow2 (v i : Z) :
  0 <= i -> Z.land v (2 ^ i) = if Z.testbit v i then 2 ^ i else 0.
Proof.
  intros Hi. apply Z.bits_inj'. intros k Hk.
  rewrite Z.land_spec, Z.pow2_bits_eqb by exact Hi.
  destruct (Z.eqb_spec i k) as [->|Hne].
  - destruct (Z.testbit v k).
    + rewrite Z.pow2_bits_true by exact Hk. reflexivity.
    + rewrite Z.bits_0. reflexivity.
  - rewrite andb_false_r. destruct (Z.testbit v i).
    + rewrite Z.pow2_bits_false by lia. reflexivity.
    + rewrite Z.bits_0. reflexivity.
Qed.

Lemma mask_selects_bit (v i : Z) :
  0 <= i -> negb (Z.land v (2 ^ i) =? 0) = Z.testbit v i.
Proof.
  intros Hi. rewrite land_pow2 by exact Hi.
  destruct (Z.testbit v i); [|reflexivity].
  assert (0 < 2 ^ i) by (apply Z.pow_pos_nonneg; lia).
  destruct (Z.eqb_spec (2 ^ i) 0); [lia | reflexivity].
Qed.

(** The byte stored by [ref |= mask]. *)
Lemma set_bit_testbit (v i j : Z) :
  0 <= i -> 0 <= j < 8 ->
  Z.testbit (u8 (Z.lor v (2 ^ i))) j = Z.testbit v j || (i =? j).
Proof.
  intros Hi Hj.
  rewrite u8_testbit, Z.lor_spec, Z.pow2_bits_eqb by lia. reflexivity.
Qed.

(** The byte stored by [ref &= ~mask]. *)
Lemma clear_bit_testbit (v i j : Z) :
  0 <= i -> 0 <= j < 8 ->
  Z.testbit (u8 (Z.land v (u8 (i16 (Z.lnot (2 ^ i)))))) j =
  Z.testbit v j && negb (i =? j).
Proof.
  intros Hi Hj.
  rewrite u8_testbit, Z.land_spec, u8_i16, u8_testbit by lia.
  rewrite Z.lnot_spec, Z.pow2_bits_eqb by lia. reflexivity.
Qed.

Lemma with_bit_testbit (v i j : Z) (b : bool) :
  0 <= i -> 0 <= j < 8 ->
  Z.testbit (with_bit v i b) j = if i =? j then b else Z.testbit v j.
Proof.
  intros Hi Hj. unfold with_bit. destruct b.
  - rewrite set_bit_testbit by assumption.
    destruct (i =? j); [apply orb_true_r | apply orb_false_r].
  - rewrite clear_bit_testbit by assumption.
    destruct (i =? j); [apply andb_false_r | apply andb_true_r].
Qed.

Lemma writeBit_run (ref : EERef.t) (i : Z) (b : bool) (d : device) :
  0 <= i <= 7 ->
  let p := EERef.cell_ptr ref in
  EEPROMClass.writeBit ref i b d =
  Done (tt, mkDevice (store (cells d) p (with_bit (cells d p) i b))
                     (trace d ++ [EvRead p;
                                  EvWrite p (with_bit (cells d p) i b)])).
Proof.
  intros Hi p.
  unfold EEPROMClass.writeBit, EEBit.assign, EERef_bit, EEBit.make, bind.
  cbn [EEBit.ref EEBit.mask]. rewrite (bit_mask_pow2 i Hi).
  unfold EERef.or_assign, EERef.and_assign, with_bit. destruct b.
  - rewrite (compound_run Or _ _ (Z.lor (cells d p) (2 ^ i))); reflexivity.
  - rewrite (compound_run And _ _
               (Z.land (cells d p) (u8 (i16 (Z.lnot (2 ^ i))))));
      reflexivity.
Qed.

Lemma readBit_run (ref : EERef.t) (i : Z) (d : device) :
  0 <= i <= 7 ->
  let p := EERef.cell_ptr ref in
  EEBit.to_bool (EEPROMClass.readBit ref i) d =
  Done (Z.testbit (cells d p) i, mkDevice (cells d) (trace d ++ [EvRead p])).
Proof.
  intros Hi p.
  unfold EEBit.to_bool, EEPROMClass.readBit, EERef_bit, EEBit.make,
    EERef.to_uint8, bind.
  cbn [EEBit.ref EEBit.mask]. rewrite (bit_mask_pow2 i Hi), deref_run.
  unfold ret. rewrite mask_selects_bit by lia. reflexivity.
Qed.

(** ** Properties of bits *)

(** C4: for a bit index [i] in [0,7], after [writeBit(a, i, b)] the bit
    read by [readBit(a, i)] is [b] and each of the other seven bits of
    the byte at [a] is as before; the bit write is one read and one
    unconditional write of the whole byte; [readBit(a, i)] is true
    exactly when [read(a) & (1 << i)] is not zero. *)
Theorem writeBit_then_readBit (a i : Z) (b : bool) (d : device) :
  0 <= i <= 7 ->
  (exists d1 d2 nv,
      EEPROMClass.writeBit (EERef.mk a) i b d = Done (tt, d1)
      /\ trace d1 = trace d ++ [EvRead (u16 a); EvWrite (u16 a) nv]
      /\ EEBit.to_bool (EEPROMClass.readBit (EERef.mk a) i) d1 = Done (b, d2)
      /\ is_u8 (peek d1 a)
      /\ forall j : Z, 0 <= j <= 7 -> j <> i ->
           Z.testbit (peek d1 a) j = Z.testbit (peek d a) j)
  /\ forall d' : device,
      EEBit.to_bool (EEPROMClass.readBit (EERef.mk a) i) d' =
      Done (negb (Z.land (peek d' a) (Z.shiftl 1 i) =? 0),
            mkDevice (cells d') (trace d' ++ [EvRead (u16 a)])).
Proof.
  intros Hi. split.
  - exists (mkDevice (store (cells d) (u16 a) (with_bit (cells d (u16 a)) i b))
                     (trace d ++ [EvRead (u16 a);
                                  EvWrite (u16 a)
                                          (with_bit (cells d (u16 a)) i b)])).
    eexists. exists (with_bit (cells d (u16 a)) i b).
    split; [apply (writeBit_run (EERef.mk a) i b d Hi)|].
    split; [reflexivity|]. split; [|split].
    + rewrite (readBit_run (EERef.mk a) i _ Hi).
      cbn [cells EERef.cell_ptr EERef.index].
      rewrite store_same, with_bit_testbit, Z.eqb_refl by lia. reflexivity.
    + unfold peek. cbn [cells]. rewrite store_same.
      unfold with_bit. destruct b; apply u8_range.
    + intros j Hj Hne. unfold peek. cbn [cells].
      rewrite store_same, with_bit_testbit by lia.
      destruct (Z.eqb_spec i j); [congruence | reflexivity].
  - intros d'. rewrite (readBit_run (EERef.mk a) i d' Hi).
    rewrite Z.shiftl_1_l, mask_selects_bit by lia. reflexivity.
Qed.

(** Storage of 512 cells: cell 10 holds [0xAA]; bit 0 is set and then
    read back, the other bits of [0xAA] are kept. *)
Lemma writeBit_then_readBit_witness :
  let d := mkDevice (fun _ => 170) [] in
  0 <= 0 <= 7
  /\ EEBit.to_bool (EEPROMClass.readBit (EERef.mk 10) 0) d =
       Done (false, mkDevice (cells d) [EvRead 10])
  /\ exists d1 d2 nv,
      EEPROMClass.writeBit (EERef.mk 10) 0 true d = Done (tt, d1)
      /\ trace d1 = [EvRead 10; EvWrite 10 nv]
      /\ EEBit.to_bool (EEPROMClass.readBit (EERef.mk 10) 0) d1 = Done (true, d2)
      /\ is_u8 (peek d1 10)
      /\ forall j : Z, 0 <= j <= 7 -> j <> 0 ->
           Z.testbit (peek d1 10) j = Z.testbit 170 j.
Proof.
  intros d.
  assert (H0 : 0 <= 0 <= 7) by lia.
  split; [exact H0|].
  destruct (writeBit_then_readBit 10 0 true d H0) as [Hw Hr].
  split; [exact (Hr d) | exact Hw].
Defined.

(** ** Cursors and the range of the device *)

Lemma ptr_ne_spec (p q : EEPtr.t) :
  EEPtr.ne p q = true <-> EEPtr.index p <> EEPtr.index q.
Proof.
  unfold EEPtr.ne. rewrite negb_true_iff. apply Z.eqb_neq.
Qed.

Lemma ptr_incr_small (k : Z) :
  -32768 <= k < 32767 -> EEPtr.pre_incr (EEPtr.mk k) = EEPtr.mk (k + 1).
Proof.
  intros H. unfold EEPtr.pre_incr. cbn [EEPtr.index].
  rewrite i16_small by lia. reflexivity.
Qed.

(** The loop started [n] cells before its end visits these [n] cells in
    ascending order, given fuel for [n] rounds. *)
Lemma range_for_run (n : nat) :
  forall (k fuel : nat),
    Z.of_nat k + Z.of_nat n <= 32767 ->
    (n <= fuel)%nat ->
    range_for fuel (EEPtr.mk (Z.of_nat k)) (EEPtr.mk (Z.of_nat (k + n))) =
    Some (map Z.of_nat (seq k n)).
Proof.
  induction n as [|n IH]; intros k fuel Hk Hfuel.
  - rewrite Nat.add_0_r.
    destruct fuel; cbn; unfold EEPtr.ne; cbn [EEPtr.index];
      rewrite Z.eqb_refl; reflexivity.
  - destruct fuel as [|fuel]; [lia|].
    cbn [range_for].
    assert (Hne : EEPtr.ne (EEPtr.mk (Z.of_nat k))
                           (EEPtr.mk (Z.of_nat (k + S n))) = true).
    { apply ptr_ne_spec. cbn [EEPtr.index]. lia. }
    rewrite Hne, ptr_incr_small by lia.
    replace (Z.of_nat k + 1) with (Z.of_nat (S k)) by lia.
    replace (k + S n)%nat with (S k + n)%nat by lia.
    rewrite IH by lia.
    unfold EEPtr.deref, EERef.cell_ptr. cbn [EEPtr.index EERef.index].
    rewrite u16_small by lia. reflexivity.
Qed.

Lemma ascending_NoDup (k n : nat) : NoDup (map Z.of_nat (seq k n)).
Proof.
  apply Injective_map_NoDup; [|apply seq_NoDup].
  intros x y. apply Nat2Z.inj.
Qed.

(** C6: on a device whose size [E2END + 1] fits [int], [begin()] is the
    pointer at 0 and [end()] the pointer at [length() = E2END + 1]; the
    loop from [begin()] incremented while it differs from [end()] ends
    and visits the addresses [0 .. N-1] in order, each once; a pointer at
    0 moved by 3 is the pointer at 3; two pointers compare unequal
    exactly when their indices differ. *)
Theorem range_iteration (E2END : Z) :
  0 <= E2END < 32767 ->
  let N := EEPROMClass.length E2END in
  N = E2END + 1
  /\ EEPROMClass.begin = EEPtr.mk 0
  /\ EEPROMClass.end_ E2END = EEPtr.mk N
  /\ (forall fuel : nat,
        (Z.to_nat N <= fuel)%nat ->
        range_for fuel EEPROMClass.begin (EEPROMClass.end_ E2END) =
        Some (map Z.of_nat (seq 0 (Z.to_nat N))))
  /\ List.length (map Z.of_nat (seq 0 (Z.to_nat N))) = Z.to_nat N
  /\ NoDup (map Z.of_nat (seq 0 (Z.to_nat N)))
  /\ i16 (EEPtr.to_int (EEPtr.mk 0) + 3) = EEPtr.to_int (EEPtr.mk 3)
  /\ EEPtr.add_assign (EEPtr.mk 0) 3 = EEPtr.mk 3
  /\ EEPtr.at_ (EEPtr.mk 0) 3 = EEPtr.deref (EEPtr.mk 3)
  /\ forall p q : EEPtr.t,
      EEPtr.ne p q = true <-> EEPtr.index p <> EEPtr.index q.
Proof.
  intros HE N.
  assert (HN : N = E2END + 1).
  { unfold N, EEPROMClass.length.
    rewrite u16_i16. apply u16_small. lia. }
  assert (Hend : EEPROMClass.end_ E2END = EEPtr.mk N).
  { unfold EEPROMClass.end_. fold N. rewrite i16_small by lia. reflexivity. }
  split; [exact HN|]. split; [reflexivity|]. split; [exact Hend|].
  split; [|split; [|split; [|split; [|split; [|split]]]]].
  - intros fuel Hfuel. rewrite Hend. unfold EEPROMClass.begin.
    pose proof (range_for_run (Z.to_nat N) 0 fuel) as H.
    cbn [Z.of_nat Nat.add] in H. rewrite Z2Nat.id in H by lia.
    apply H; [lia | exact Hfuel].
  - rewrite length_map, length_seq. reflexivity.
  - apply ascending_NoDup.
  - reflexivity.
  - reflexivity.
  - reflexivity.
  - apply ptr_ne_spec.
Qed.

(** A device of 512 cells, addresses 0 to 511. *)
Lemma range_iteration_witness :
  0 <= 511 < 32767
  /\ EEPROMClass.length 511 = 512
  /\ EEPROMClass.end_ 511 = EEPtr.mk 512
  /\ range_for 512 EEPROMClass.begin (EEPROMClass.end_ 511) =
       Some (map Z.of_nat (seq 0 512)).
Proof.
  assert (H : 0 <= 511 < 32767) by lia.
  split; [exact H|].
  destruct (range_iteration 511 H) as (HN & _ & Hend & Hrun & _).
  split; [exact HN|]. split; [exact Hend|].
  apply (Hrun 512%nat). rewrite HN. vm_compute. apply le_n.
Defined.

(** ** Blocks of cells *)

Lemma u16_i16_add (a b : Z) : u16 (i16 a + b) = u16 (a + b).
Proof.
  rewrite i16_congruent. unfold u16.
  replace (a + - ((a + 32768) / 65536) * 65536 + b)
    with (a + b + - ((a + 32768) / 65536) * 65536) by ring.
  apply Z.mod_add. lia.
Qed.

Lemma cells_from_ascending (n : nat) (ptr : EEPtr.t) :
  cells_from ptr n =
  map (fun j => u16 (EEPtr.index ptr + Z.of_nat j)) (seq 0 n).
Proof.
  revert ptr. induction n as [|n IH]; intros ptr; [reflexivity|].
  cbn [cells_from seq map]. f_equal.
  - unfold EEPtr.deref, EERef.cell_ptr. cbn [EERef.index].
    f_equal. cbn. lia.
  - rewrite IH, <- seq_shift, map_map. apply map_ext. intros j.
    unfold EEPtr.pre_incr. cbn [EEPtr.index].
    rewrite u16_i16_add. f_equal. lia.
Qed.

Lemma u16_offset_inv (k j : Z) :
  0 <= j < 65536 -> (u16 (k + j) - k) mod 65536 = j.
Proof.
  intros H. unfold u16. rewrite Zminus_mod_idemp_l.
  replace (k + j - k) with j by ring. apply Z.mod_small. exact H.
Qed.

(** A block shorter than the address space does not wrap onto itself. *)
Lemma cells_from_NoDup (n : nat) (ptr : EEPtr.t) :
  Z.of_nat n <= 65536 -> NoDup (cells_from ptr n).
Proof.
  intros Hn. rewrite cells_from_ascending.
  apply Injective_map_NoDup_in; [|apply seq_NoDup].
  intros x y Hx Hy E. apply in_seq in Hx, Hy.
  apply (f_equal (fun z => (z - EEPtr.index ptr) mod 65536)) in E.
  rewrite !u16_offset_inv in E by lia. lia.
Qed.

Lemma update_effect (r : EERef.t) (b : Z) (d : device) :
  exists d1,
    EERef.update r b d = Done (r, d1)
    /\ cells d1 (EERef.cell_ptr r) = b
    /\ (forall q, q <> EERef.cell_ptr r -> cells d1 q = cells d q)
    /\ writes (trace d1) =
       writes (trace d) ++
       map write_of (filter (differs (cells d)) [(EERef.cell_ptr r, b)]).
Proof.
  destruct (Z.eq_dec (cells d (EERef.cell_ptr r)) b) as [E|E].
  - eexists. split; [apply update_run_same; exact E|].
    cbn [cells trace]. split; [exact E|]. split; [reflexivity|].
    rewrite writes_app. cbn [filter]. unfold differs. cbn [fst snd].
    rewrite E, Z.eqb_refl. cbn. rewrite !app_nil_r. reflexivity.
  - eexists. split; [apply update_run_diff; exact E|].
    cbn [cells trace]. split; [apply store_same|].
    split; [intros q Hq; apply store_other; exact Hq|].
    rewrite writes_app. cbn [filter]. unfold differs. cbn [fst snd].
    assert (Hb : (b =? cells d (EERef.cell_ptr r)) = false)
      by (apply Z.eqb_neq; congruence).
    rewrite Hb. reflexivity.
Qed.

(** [get] reads the cells of the block in ascending order and returns
    their bytes in that order; storage is as before. *)
Lemma get_loop_run (dest : list Z) :
  forall (ptr : EEPtr.t) (d : device),
    EEPROMClass.get_loop ptr dest d =
    Done (map (cells d) (cells_from ptr (length dest)),
          mkDevice (cells d)
                   (trace d ++ map EvRead (cells_from ptr (length dest)))).
Proof.
  induction dest as [|x dest IH]; intros ptr d.
  - cbn. rewrite app_nil_r. destruct d; reflexivity.
  - cbn [EEPROMClass.get_loop length cells_from map].
    unfold bind, EERef.to_uint8. rewrite deref_run, IH.
    cbn [cells trace]. unfold ret. rewrite <- app_assoc. reflexivity.
Qed.

(** [put] over a block that already holds the bytes: reads only. *)
Lemma put_loop_noop (src : list Z) :
  forall (ptr : EEPtr.t) (d : device),
    map (cells d) (cells_from ptr (length src)) = src ->
    EEPROMClass.put_loop ptr src d =
    Done (tt, mkDevice (cells d)
                       (trace d ++ map EvRead (cells_from ptr (length src)))).
Proof.
  induction src as [|b src IH]; intros ptr d H.
  - cbn. rewrite app_nil_r. destruct d; reflexivity.
  - cbn [length cells_from map] in H. injection H as Hb Hrest.
    cbn [EEPROMClass.put_loop length cells_from map]. unfold bind.
    rewrite (update_run_same _ _ _ Hb), IH by exact Hrest.
    cbn [cells trace]. rewrite <- app_assoc. reflexivity.
Qed.

(** [put] over a block that does not wrap onto itself: the block then
    holds the bytes, the cells outside are as before, and the writes
    issued are those of the positions whose cell held another byte. *)
Lemma put_loop_run (src : list Z) :
  forall (ptr : EEPtr.t) (d : device),
    NoDup (cells_from ptr (length src)) ->
    exists d1,
      EEPROMClass.put_loop ptr src d = Done (tt, d1)
      /\ map (cells d1) (cells_from ptr (length src)) = src
      /\ (forall q, ~ In q (cells_from ptr (length src)) ->
                    cells d1 q = cells d q)
      /\ writes (trace d1) =
         writes (trace d) ++
         map write_of
             (filter (differs (cells d))
                     (combine (cells_from ptr (length src)) src)).
Proof.
  induction src as [|b src IH]; intros ptr d Hnd.
  - exists d. cbn. rewrite app_nil_r. repeat split; reflexivity.
  - cbn [length cells_from] in Hnd |- *.
    inversion Hnd as [|p0 rest Hnotin Hrest]; subst.
    destruct (update_effect (EEPtr.deref ptr) b d)
      as (d' & Hrun & Hb & Hframe & Hw).
    destruct (IH (EEPtr.pre_incr ptr) d' Hrest)
      as (d1 & Hrun1 & Hmap & Hframe1 & Hw1).
    exists d1. split; [|split; [|split]].
    + cbn [EEPROMClass.put_loop]. unfold bind. rewrite Hrun. exact Hrun1.
    + cbn [map]. rewrite Hmap, (Hframe1 _ Hnotin), Hb. reflexivity.
    + intros q Hq. cbn [In] in Hq.
      rewrite Hframe1 by tauto. apply Hframe. intros ->. tauto.
    + rewrite Hw1, Hw. cbn [combine]. rewrite <- app_assoc, <- map_app.
      f_equal. f_equal.
      change (filter (differs (cells d))
                ((EERef.cell_ptr (EEPtr.deref ptr), b)
                   :: combine (cells_from (EEPtr.pre_incr ptr) (length src)) src))
        with (filter (differs (cells d))
                ([(EERef.cell_ptr (EEPtr.deref ptr), b)]
                   ++ combine (cells_from (EEPtr.pre_incr ptr) (length src)) src)).
      rewrite filter_app. f_equal.
      apply filter_ext_in. intros [p x] Hin. unfold differs. cbn [fst snd].
      rewrite Hframe; [reflexivity|].
      intros ->. apply Hnotin. exact (in_combine_l _ _ _ _ Hin).
Qed.

Lemma cells_from_length (n : nat) (ptr : EEPtr.t) :
  length (cells_from ptr n) = n.
Proof. rewrite cells_from_ascending, length_map. apply length_seq. Qed.

(** In a block without repeated addresses, the byte paired with the
    address of position [j] is the byte of position [j]. *)
Lemma combine_NoDup_nth (ps bs : list Z) (j : nat) (v : Z) :
  NoDup ps -> length ps = length bs -> (j < length bs)%nat ->
  In (nth j ps 0, v) (combine ps bs) -> v = nth j bs 0.
Proof.
  intros Hnd Hlen Hj Hin.
  destruct (In_nth _ _ (0, 0) Hin) as (i & Hi & E).
  rewrite length_combine in Hi.
  rewrite combine_nth in E by exact Hlen.
  injection E as Ep Ev.
  assert (i = j) by (apply (proj1 (NoDup_nth ps 0) Hnd); [lia | lia | exact Ep]).
  subst i. symmetry. exact Ev.
Qed.

Lemma writes_of_reads (ps : list Z) : writes (map EvRead ps) = [].
Proof. induction ps as [|p ps IH]; [reflexivity | exact IH]. Qed.

(** ** Properties of [get] and [put] *)

(** C2: for an object of [sizeof(T)] bytes [x] (at most 32767, the
    largest [int]) and any pointer, [put(ptr, x)] followed by
    [get(ptr, y)] into an object [y] of the same type leaves [y] equal to
    [x] byte for byte; [get] reads the [sizeof(T)] cells at the ascending
    addresses from [ptr] on and lays their bytes out low to high. *)
Theorem put_then_get (ptr : EEPtr.t) (x y : list Z) (d : device) :
  length y = length x ->
  Z.of_nat (length x) <= 32767 ->
  (exists d1 d2,
      EEPROMClass.put ptr x d = Done (x, d1)
      /\ EEPROMClass.get ptr y d1 = Done (x, d2))
  /\ forall d' : device,
      EEPROMClass.get ptr y d' =
      Done (map (fun j => cells d' (u16 (EEPtr.index ptr + Z.of_nat j)))
                (seq 0 (length y)),
            mkDevice (cells d')
                     (trace d' ++
                      map (fun j => EvRead (u16 (EEPtr.index ptr + Z.of_nat j)))
                          (seq 0 (length y)))).
Proof.
  intros Hlen Hsize. split.
  - destruct (put_loop_run x ptr d) as (d1 & Hput & Hmap & _).
    { apply cells_from_NoDup. lia. }
    exists d1. eexists. split.
    + unfold EEPROMClass.put, bind. rewrite Hput. reflexivity.
    + unfold EEPROMClass.get. rewrite get_loop_run, Hlen, Hmap. reflexivity.
  - intros d'. unfold EEPROMClass.get.
    rewrite get_loop_run, cells_from_ascending, !map_map. reflexivity.
Qed.

(** A four-byte object written at cell 510 of a blank device and read
    back into a zeroed object. *)
Lemma put_then_get_witness :
  let d := mkDevice (fun _ => 255) [] in
  let x := [18; 52; 86; 120] in
  length [0; 0; 0; 0] = length x
  /\ Z.of_nat (length x) <= 32767
  /\ exists d1 d2,
      EEPROMClass.put (EEPtr.mk 510) x d = Done (x, d1)
      /\ EEPROMClass.get (EEPtr.mk 510) [0; 0; 0; 0] d1 = Done (x, d2).
Proof.
  intros d x.
  assert (Hlen : length [0; 0; 0; 0] = length x) by reflexivity.
  assert (Hsize : Z.of_nat (length x) <= 32767) by (cbn; lia).
  split; [exact Hlen|]. split; [exact Hsize|].
  exact (proj1 (put_then_get (EEPtr.mk 510) x [0; 0; 0; 0] d Hlen Hsize)).
Defined.

(** C3: when the [sizeof(T)] cells from [ptr] on already hold the bytes
    of [x], [put(ptr, x)] issues no physical write and leaves the storage
    as it is; in general (for an object of at most 32767 bytes) the
    writes [put] issues are, in ascending order of position, exactly
    those of the positions whose cell held a byte other than the byte of
    [x]; no cell that matched is written, and no cell outside the block
    changes. *)
Theorem put_writes_only_changes (ptr : EEPtr.t) (x : list Z) (d : device) :
  let ps := cells_from ptr (length x) in
  ps = map (fun j => u16 (EEPtr.index ptr + Z.of_nat j)) (seq 0 (length x))
  /\ (map (cells d) ps = x ->
      EEPROMClass.put ptr x d =
        Done (x, mkDevice (cells d) (trace d ++ map EvRead ps))
      /\ writes (trace d ++ map EvRead ps) = writes (trace d))
  /\ (Z.of_nat (length x) <= 32767 ->
      exists d1,
        EEPROMClass.put ptr x d = Done (x, d1)
        /\ writes (trace d1) =
           writes (trace d) ++
           map write_of (filter (differs (cells d)) (combine ps x))
        /\ (forall (j : nat) (v : Z),
              (j < length x)%nat ->
              cells d (nth j ps 0) = nth j x 0 ->
              ~ In (EvWrite (nth j ps 0) v)
                   (map write_of (filter (differs (cells d)) (combine ps x))))
        /\ (forall q : Z, ~ In q ps -> cells d1 q = cells d q)).
Proof.
  intros ps. split; [apply cells_from_ascending|]. split.
  - intros H. split.
    + unfold EEPROMClass.put, bind. rewrite put_loop_noop by exact H.
      reflexivity.
    + rewrite writes_app.
      rewrite writes_of_reads. apply app_nil_r.
  - intros Hsize.
    assert (Hnd : NoDup ps) by (apply cells_from_NoDup; lia).
    destruct (put_loop_run x ptr d Hnd) as (d1 & Hput & _ & Hframe & Hw).
    exists d1. split; [|split; [|split]].
    + unfold EEPROMClass.put, bind. rewrite Hput. reflexivity.
    + exact Hw.
    + intros j v Hj Hsame Hin.
      apply in_map_iff in Hin. destruct Hin as ([p b] & Hev & Hin).
      unfold write_of in Hev. cbn [fst snd] in Hev. injection Hev as -> ->.
      apply filter_In in Hin. destruct Hin as [Hin Hdiff].
      assert (Hv : v = nth j x 0).
      { apply (combine_NoDup_nth ps x j v Hnd); try assumption.
        apply cells_from_length. }
      unfold differs in Hdiff. cbn [fst snd] in Hdiff.
      rewrite Hsame, Hv, Z.eqb_refl in Hdiff. discriminate Hdiff.
    + exact Hframe.
Qed.

(** A four-byte object already stored at cell 8 is put again: no write.
    With its third byte changed, one write, of that byte. *)
Lemma put_writes_only_changes_witness :
  let d := mkDevice (store (store (store (store (fun _ => 255)
                       8 18) 9 52) 10 86) 11 120) [] in
  map (cells d) (cells_from (EEPtr.mk 8) 4) = [18; 52; 86; 120]
  /\ EEPROMClass.put (EEPtr.mk 8) [18; 52; 86; 120] d =
       Done ([18; 52; 86; 120],
             mkDevice (cells d) [EvRead 8; EvRead 9; EvRead 10; EvRead 11])
  /\ Z.of_nat (length [18; 52; 0; 120]) <= 32767
  /\ exists d1,
      EEPROMClass.put (EEPtr.mk 8) [18; 52; 0; 120] d = Done ([18; 52; 0; 120], d1)
      /\ writes (trace d1) = [EvWrite 10 0].
Proof.
  intros d.
  assert (Hsame : map (cells d) (cells_from (EEPtr.mk 8) 4) = [18; 52; 86; 120])
    by reflexivity.
  assert (Hsize : Z.of_nat (length [18; 52; 0; 120]) <= 32767) by (cbn; lia).
  split; [exact Hsame|].
  split.
  - exact (proj1 (proj1 (proj2 (put_writes_only_changes
                                  (EEPtr.mk 8) [18; 52; 86; 120] d)) Hsame)).
  - split; [exact Hsize|].
    destruct (proj2 (proj2 (put_writes_only_changes
                              (EEPtr.mk 8) [18; 52; 0; 120] d)) Hsize)
      as (d1 & Hput & Hw & _).
    exists d1. split; [exact Hput | exact Hw].
Defined.

(** ** Further properties of single cells *)

Lemma update_returns (r : EERef.t) (v : Z) (d : device) :
  exists d1,
    EERef.update r v d = Done (r, d1)
    /\ (forall q, cells d1 q = store (cells d) (EERef.cell_ptr r) v q)
    /\ (length (writes (trace d1)) <= S (length (writes (trace d))))%nat.
Proof.
  destruct (Z.eq_dec (cells d (EERef.cell_ptr r)) v) as [E|E].
  - eexists. split; [apply update_run_same; exact E|]. cbn [cells trace]. split.
    + intros q. unfold store. destruct (Z.eqb_spec q (EERef.cell_ptr r)); congruence.
    + rewrite writes_app, length_app. cbn. lia.
  - eexists. split; [apply update_run_diff; exact E|]. cbn [cells trace]. split.
    + reflexivity.
    + rewrite writes_app, length_app. cbn. lia.
Qed.

(** X1: [update] leaves every cell holding what [write] would leave, and
    an [update] right after it with the same byte is a read only: the
    storage object and the writes of the trace are as they were. *)
Theorem update_saves_the_second_write (r : EERef.t) (v : Z) (d : device) :
  exists d1,
    EERef.update r v d = Done (r, d1)
    /\ (forall q, cells d1 q = store (cells d) (EERef.cell_ptr r) v q)
    /\ EERef.update r v d1 =
       Done (r, mkDevice (cells d1) (trace d1 ++ [EvRead (EERef.cell_ptr r)]))
    /\ writes (trace d1 ++ [EvRead (EERef.cell_ptr r)]) = writes (trace d1).
Proof.
  destruct (update_returns r v d) as (d1 & Hrun & Hcells & _).
  exists d1. split; [exact Hrun|]. split; [exact Hcells|]. split.
  - apply update_run_same. rewrite Hcells. apply store_same.
  - rewrite writes_app. apply app_nil_r.
Qed.

Lemma compound_frame (op : binop) (r r' : EERef.t) (n : Z) (d d1 : device) :
  EERef.compound op r n d = Done (r', d1) ->
  r' = r /\ touches_only (EERef.cell_ptr r) d d1.
Proof.
  unfold EERef.compound, bind, lift. rewrite deref_run.
  destruct (eval_binop op (cells d (EERef.cell_ptr r)) n) as [x|];
    [|discriminate].
  rewrite assign_run. cbn [cells trace]. intros H. injection H as <- <-.
  split; [reflexivity|]. intros q Hq. cbn [cells]. apply store_other. exact Hq.
Qed.

Lemma bit_assign_frame (b b' : EEBit.t) (c : bool) (d d1 : device) :
  EEBit.assign b c d = Done (b', d1) ->
  b' = b /\ touches_only (EERef.cell_ptr (EEBit.ref b)) d d1.
Proof.
  unfold EEBit.assign, bind, EERef.or_assign, EERef.and_assign.
  destruct c.
  - destruct (EERef.compound Or (EEBit.ref b) (EEBit.mask b) d)
      as [[r' d']|] eqn:E; [|discriminate].
    apply compound_frame in E. destruct E as [_ Hf].
    unfold ret. intros H. injection H as <- <-. split; [reflexivity | exact Hf].
  - destruct (EERef.compound And (EEBit.ref b)
                (u8 (i16 (Z.lnot (EEBit.mask b)))) d)
      as [[r' d']|] eqn:E; [|discriminate].
    apply compound_frame in E. destruct E as [_ Hf].
    unfold ret. intros H. injection H as <- <-. split; [reflexivity | exact Hf].
Qed.

(** X2: whatever a cell operation returns, it has changed no cell but the
    one its reference names: this holds for the ten compound assignments
    (hence prefix and postfix [++] and [--]), for [update], for the copy
    assignment, and for a bit write with any mask and any bit index. *)
Theorem cell_operations_touch_one_cell (r : EERef.t) (d d1 : device) :
  (forall op n r', EERef.compound op r n d = Done (r', d1) ->
                   touches_only (EERef.cell_ptr r) d d1)
  /\ (forall v r', EERef.update r v d = Done (r', d1) ->
                   touches_only (EERef.cell_ptr r) d d1)
  /\ (forall src r', EERef.assign_ref r src d = Done (r', d1) ->
                     touches_only (EERef.cell_ptr r) d d1)
  /\ (forall old, EERef.post_incr r d = Done (old, d1) ->
                  touches_only (EERef.cell_ptr r) d d1)
  /\ (forall old, EERef.post_decr r d = Done (old, d1) ->
                  touches_only (EERef.cell_ptr r) d d1)
  /\ (forall bidx val, EEPROMClass.writeBit r bidx val d = Done (tt, d1) ->
                       touches_only (EERef.cell_ptr r) d d1).
Proof.
  split; [|split; [|split; [|split; [|split]]]].
  - intros op n r' H. exact (proj2 (compound_frame op r r' n d d1 H)).
  - intros v r' H. destruct (update_returns r v d) as (d' & Hrun & Hc & _).
    rewrite Hrun in H. injection H as _ <-.
    intros q Hq. rewrite Hc. apply store_other. exact Hq.
  - intros src r'. unfold EERef.assign_ref, bind.
    rewrite deref_run, assign_run. cbn [cells trace].
    intros H. injection H as _ <-. intros q Hq. apply store_other. exact Hq.
  - intros old. unfold EERef.post_incr, EERef.pre_incr, EERef.add_assign, bind.
    rewrite deref_run.
    destruct (EERef.compound Add r 1 _) as [[r' d']|] eqn:E; [|discriminate].
    apply compound_frame in E. destruct E as [_ Hf]. unfold ret.
    intros H. injection H as _ <-. exact Hf.
  - intros old. unfold EERef.post_decr, EERef.pre_decr, EERef.sub_assign, bind.
    rewrite deref_run.
    destruct (EERef.compound Sub r 1 _) as [[r' d']|] eqn:E; [|discriminate].
    apply compound_frame in E. destruct E as [_ Hf]. unfold ret.
    intros H. injection H as _ <-. exact Hf.
  - intros bidx val. unfold EEPROMClass.writeBit, bind.
    destruct (EEBit.assign (EERef_bit r bidx) val d) as [[b' d']|] eqn:E;
      [|discriminate].
    apply bit_assign_frame in E. destruct E as [_ Hf]. unfold ret.
    intros H. injection H as <-. exact Hf.
Qed.

(** Cell 4 is multiplied by 3; cell 5 keeps its byte. *)
Lemma cell_operations_touch_one_cell_witness :
  let d := mkDevice (fun q => q) [] in
  let d1 := mkDevice (store (cells d) 4 12) [EvRead 4; EvWrite 4 12] in
  EERef.compound Mul (EERef.mk 4) 3 d = Done (EERef.mk 4, d1)
  /\ cells d1 5 = 5.
Proof.
  intros d d1.
  assert (H : EERef.compound Mul (EERef.mk 4) 3 d = Done (EERef.mk 4, d1))
    by reflexivity.
  split; [exact H|].
  apply (proj1 (cell_operations_touch_one_cell (EERef.mk 4) d d1)
           Mul 3 (EERef.mk 4) H 5).
  discriminate.
Defined.

Lemma incr_byte (v : Z) :
  is_u8 v -> (v + 1) mod 256 = if v =? 255 then 0 else v + 1.
Proof.
  unfold is_u8. intros H. destruct (Z.eqb_spec v 255) as [->|Hne];
    [reflexivity | apply Z.mod_small; lia].
Qed.

Lemma decr_byte (v : Z) :
  is_u8 v -> (v - 1) mod 256 = if v =? 0 then 255 else v - 1.
Proof.
  unfold is_u8. intros H. destruct (Z.eqb_spec v 0) as [->|Hne];
    [reflexivity | apply Z.mod_small; lia].
Qed.

(** X3: on a cell holding the byte [v], prefix [++] stores [v + 1], and 0
    when [v] is 255; prefix [--] stores [v - 1], and 255 when [v] is 0;
    each is one read and one write and returns the reference; [++]
    followed by [--] leaves the cell holding [v] again. *)
Theorem prefix_incr_decr_wrap (r : EERef.t) (d : device) :
  let p := EERef.cell_ptr r in
  let v := cells d p in
  is_u8 v ->
  EERef.pre_incr r d =
    Done (r, mkDevice (store (cells d) p (if v =? 255 then 0 else v + 1))
                      (trace d ++ [EvRead p;
                                   EvWrite p (if v =? 255 then 0 else v + 1)]))
  /\ EERef.pre_decr r d =
    Done (r, mkDevice (store (cells d) p (if v =? 0 then 255 else v - 1))
                      (trace d ++ [EvRead p;
                                   EvWrite p (if v =? 0 then 255 else v - 1)]))
  /\ exists d1 d2,
      EERef.pre_incr r d = Done (r, d1)
      /\ EERef.pre_decr r d1 = Done (r, d2)
      /\ cells d2 p = v.
Proof.
  intros p v Hv.
  assert (Hinc : forall d', EERef.pre_incr r d' =
    Done (r, mkDevice (store (cells d') p ((cells d' p + 1) mod 256))
                      (trace d' ++ [EvRead p;
                                    EvWrite p ((cells d' p + 1) mod 256)]))).
  { intros d'. unfold EERef.pre_incr, EERef.add_assign.
    rewrite (compound_run Add r 1 (i16 (cells d' p + 1))) by reflexivity.
    rewrite u8_i16. reflexivity. }
  assert (Hdec : forall d', EERef.pre_decr r d' =
    Done (r, mkDevice (store (cells d') p ((cells d' p - 1) mod 256))
                      (trace d' ++ [EvRead p;
                                    EvWrite p ((cells d' p - 1) mod 256)]))).
  { intros d'. unfold EERef.pre_decr, EERef.sub_assign.
    rewrite (compound_run Sub r 1 (i16 (cells d' p - 1))) by reflexivity.
    rewrite u8_i16. reflexivity. }
  split; [|split].
  - rewrite Hinc. fold v. rewrite (incr_byte v Hv). reflexivity.
  - rewrite Hdec. fold v. rewrite (decr_byte v Hv). reflexivity.
  - do 2 eexists. split; [apply Hinc|]. split; [apply Hdec|].
    cbn [cells]. rewrite !store_same. fold v.
    rewrite Zminus_mod_idemp_l.
    replace (v + 1 - 1) with v by ring. apply Z.mod_small. exact Hv.
Qed.

(** A cell holding 255 is incremented to 0. *)
Lemma prefix_incr_decr_wrap_witness :
  let d := mkDevice (fun _ => 255) [] in
  is_u8 (cells d (EERef.cell_ptr (EERef.mk 2)))
  /\ EERef.pre_incr (EERef.mk 2) d =
       Done (EERef.mk 2, mkDevice (store (cells d) 2 0)
                                  [EvRead 2; EvWrite 2 0]).
Proof.
  intros d.
  assert (H : is_u8 (cells d (EERef.cell_ptr (EERef.mk 2))))
    by (unfold is_u8; cbn; lia).
  split; [exact H|].
  exact (proj1 (prefix_incr_decr_wrap (EERef.mk 2) d H)).
Defined.

(** X4: on a cell holding the byte [v] and for a byte [n], [+=] stores
    [(v + n) mod 256], [-=] stores [(v - n) mod 256] and, when the product
    fits [int], [*=] stores [(v * n) mod 256]; [+= n] followed by [-= n]
    leaves the cell holding [v] again. *)
Theorem arithmetic_assign_wraps (r : EERef.t) (n : Z) (d : device) :
  let p := EERef.cell_ptr r in
  let v := cells d p in
  is_u8 v -> is_u8 n ->
  EERef.add_assign r n d =
    Done (r, mkDevice (store (cells d) p ((v + n) mod 256))
                      (trace d ++ [EvRead p; EvWrite p ((v + n) mod 256)]))
  /\ EERef.sub_assign r n d =
    Done (r, mkDevice (store (cells d) p ((v - n) mod 256))
                      (trace d ++ [EvRead p; EvWrite p ((v - n) mod 256)]))
  /\ (v * n < 32768 ->
      EERef.mul_assign r n d =
        Done (r, mkDevice (store (cells d) p ((v * n) mod 256))
                          (trace d ++ [EvRead p; EvWrite p ((v * n) mod 256)])))
  /\ exists d1 d2,
      EERef.add_assign r n d = Done (r, d1)
      /\ EERef.sub_assign r n d1 = Done (r, d2)
      /\ cells d2 p = v.
Proof.
  intros p v Hv Hn.
  assert (Hadd : EERef.add_assign r n d =
    Done (r, mkDevice (store (cells d) p ((v + n) mod 256))
                      (trace d ++ [EvRead p; EvWrite p ((v + n) mod 256)]))).
  { unfold EERef.add_assign.
    rewrite (compound_run Add r n (i16 (v + n))) by reflexivity.
    rewrite u8_i16. reflexivity. }
  assert (Hsub : forall d', EERef.sub_assign r n d' =
    Done (r, mkDevice (store (cells d') p ((cells d' p - n) mod 256))
                      (trace d' ++ [EvRead p;
                                    EvWrite p ((cells d' p - n) mod 256)]))).
  { intros d'. unfold EERef.sub_assign.
    rewrite (compound_run Sub r n (i16 (cells d' p - n))) by reflexivity.
    rewrite u8_i16. reflexivity. }
  split; [exact Hadd|]. split; [apply Hsub|]. split.
  - intros _. unfold EERef.mul_assign.
    rewrite (compound_run Mul r n (i16 (v * n))) by reflexivity.
    rewrite u8_i16. reflexivity.
  - do 2 eexists. split; [exact Hadd|]. split; [apply Hsub|].
    cbn [cells]. rewrite !store_same, Zminus_mod_idemp_l.
    replace (v + n - n) with v by ring. apply Z.mod_small. exact Hv.
Qed.

(** A cell holding 200 plus 100 holds 44. *)
Lemma arithmetic_assign_wraps_witness :
  let d := mkDevice (fun _ => 200) [] in
  is_u8 (cells d (EERef.cell_ptr (EERef.mk 1))) /\ is_u8 100
  /\ EERef.add_assign (EERef.mk 1) 100 d =
       Done (EERef.mk 1, mkDevice (store (cells d) 1 44)
                                  [EvRead 1; EvWrite 1 44])
  /\ 200 * 100 < 32768
  /\ EERef.mul_assign (EERef.mk 1) 100 d =
       Done (EERef.mk 1, mkDevice (store (cells d) 1 32)
                                  [EvRead 1; EvWrite 1 32]).
Proof.
  intros d.
  assert (Hv : is_u8 (cells d (EERef.cell_ptr (EERef.mk 1))))
    by (unfold is_u8; cbn; lia).
  assert (Hn : is_u8 100) by (unfold is_u8; lia).
  assert (Hm : 200 * 100 < 32768) by lia.
  destruct (arithmetic_assign_wraps (EERef.mk 1) 100 d Hv Hn)
    as (Hadd & _ & Hmul & _).
  split; [exact Hv|]. split; [exact Hn|]. split; [exact Hadd|].
  split; [exact Hm | exact (Hmul Hm)].
Defined.

Lemma byte_high_bits (v k : Z) : is_u8 v -> 8 <= k -> Z.testbit v k = false.
Proof.
  intros Hv Hk. rewrite <- (u8_small v Hv). unfold u8. change 256 with (2 ^ 8).
  apply Z.mod_pow2_bits_high. lia.
Qed.

Lemma u8_of_low_bits (x : Z) :
  (forall k, 8 <= k -> Z.testbit x k = false) -> u8 x = x.
Proof.
  intros H. apply Z.bits_inj'. intros k Hk. unfold u8. change 256 with (2 ^ 8).
  rewrite Z.testbit_mod_pow2 by lia.
  destruct (Z.ltb_spec k 8) as [Hlt|Hge]; [reflexivity|].
  rewrite H by exact Hge. reflexivity.
Qed.

(** Two bytes with the same eight bits are the same byte. *)
Lemma byte_ext (x y : Z) :
  is_u8 x -> is_u8 y ->
  (forall k, 0 <= k < 8 -> Z.testbit x k = Z.testbit y k) -> x = y.
Proof.
  intros Hx Hy H. apply Z.bits_inj'. intros k Hk.
  destruct (Z.ltb_spec k 8) as [Hlt|Hge]; [apply H; lia|].
  rewrite (byte_high_bits x k Hx Hge), (byte_high_bits y k Hy Hge). reflexivity.
Qed.

(** X5: on a cell holding the byte [v] and for a byte [n], [^=], [&=]
    and [|=] store the bitwise exclusive or, and, or of [v] and [n]
    unchanged by the conversion to [uint8_t]; [^= n] applied twice leaves
    the cell holding [v] again. *)
Theorem logical_assign_bitwise (r : EERef.t) (n : Z) (d : device) :
  let p := EERef.cell_ptr r in
  let v := cells d p in
  is_u8 v -> is_u8 n ->
  EERef.xor_assign r n d =
    Done (r, mkDevice (store (cells d) p (Z.lxor v n))
                      (trace d ++ [EvRead p; EvWrite p (Z.lxor v n)]))
  /\ EERef.and_assign r n d =
    Done (r, mkDevice (store (cells d) p (Z.land v n))
                      (trace d ++ [EvRead p; EvWrite p (Z.land v n)]))
  /\ EERef.or_assign r n d =
    Done (r, mkDevice (store (cells d) p (Z.lor v n))
                      (trace d ++ [EvRead p; EvWrite p (Z.lor v n)]))
  /\ exists d1 d2,
      EERef.xor_assign r n d = Done (r, d1)
      /\ EERef.xor_assign r n d1 = Done (r, d2)
      /\ cells d2 p = v.
Proof.
  intros p v Hv Hn.
  assert (Hx : u8 (Z.lxor v n) = Z.lxor v n).
  { apply u8_of_low_bits. intros k Hk.
    rewrite Z.lxor_spec, (byte_high_bits v k Hv Hk), (byte_high_bits n k Hn Hk).
    reflexivity. }
  assert (Ha : u8 (Z.land v n) = Z.land v n).
  { apply u8_of_low_bits. intros k Hk.
    rewrite Z.land_spec, (byte_high_bits v k Hv Hk). reflexivity. }
  assert (Ho : u8 (Z.lor v n) = Z.lor v n).
  { apply u8_of_low_bits. intros k Hk.
    rewrite Z.lor_spec, (byte_high_bits v k Hv Hk), (byte_high_bits n k Hn Hk).
    reflexivity. }
  assert (Hxor : forall d', EERef.xor_assign r n d' =
    Done (r, mkDevice (store (cells d') p (u8 (Z.lxor (cells d' p) n)))
                      (trace d' ++ [EvRead p;
                                    EvWrite p (u8 (Z.lxor (cells d' p) n))]))).
  { intros d'. unfold EERef.xor_assign.
    apply (compound_run Xor r n (Z.lxor (cells d' p) n)). reflexivity. }
  split; [|split; [|split]].
  - rewrite Hxor. fold v. rewrite Hx. reflexivity.
  - unfold EERef.and_assign.
    rewrite (compound_run And r n (Z.land v n)) by reflexivity.
    rewrite Ha. reflexivity.
  - unfold EERef.or_assign.
    rewrite (compound_run Or r n (Z.lor v n)) by reflexivity.
    rewrite Ho. reflexivity.
  - do 2 eexists. split; [apply Hxor|]. split; [apply Hxor|].
    cbn [cells]. rewrite !store_same. fold v.
    rewrite Hx, Z.lxor_assoc, Z.lxor_nilpotent, Z.lxor_0_r.
    apply u8_small. exact Hv.
Qed.

(** [0xAA ^ 0x0F] is [0xA5]. *)
Lemma logical_assign_bitwise_witness :
  let d := mkDevice (fun _ => 170) [] in
  is_u8 (cells d (EERef.cell_ptr (EERef.mk 6))) /\ is_u8 15
  /\ EERef.xor_assign (EERef.mk 6) 15 d =
       Done (EERef.mk 6, mkDevice (store (cells d) 6 165)
                                  [EvRead 6; EvWrite 6 165]).
Proof.
  intros d.
  assert (Hv : is_u8 (cells d (EERef.cell_ptr (EERef.mk 6))))
    by (unfold is_u8; cbn; lia).
  assert (Hn : is_u8 15) by (unfold is_u8; lia).
  split; [exact Hv|]. split; [exact Hn|].
  exact (proj1 (logical_assign_bitwise (EERef.mk 6) 15 d Hv Hn)).
Defined.

(** X6: on a cell holding the byte [v], [<<= n] with [n] in [0,7] stores
    [(v * 2^n) mod 256], the bits shifted out at the top being lost;
    [>>= n] with [n] in [0,15] stores [v / 2^n], which is 0 from [n = 8]
    on. *)
Theorem shift_assign_bytes (r : EERef.t) (n : Z) (d : device) :
  let p := EERef.cell_ptr r in
  let v := cells d p in
  is_u8 v ->
  (0 <= n <= 7 ->
   EERef.shl_assign r n d =
     Done (r, mkDevice (store (cells d) p ((v * 2 ^ n) mod 256))
                       (trace d ++ [EvRead p;
                                    EvWrite p ((v * 2 ^ n) mod 256)])))
  /\ (0 <= n <= 15 ->
      EERef.shr_assign r n d =
        Done (r, mkDevice (store (cells d) p (v / 2 ^ n))
                          (trace d ++ [EvRead p; EvWrite p (v / 2 ^ n)]))
      /\ (8 <= n -> v / 2 ^ n = 0)).
Proof.
  intros p v Hv. split.
  - intros Hn. unfold EERef.shl_assign.
    rewrite (compound_run Shl r n (i16 (Z.shiftl v n))) by reflexivity.
    rewrite u8_i16, Z.shiftl_mul_pow2 by lia. reflexivity.
  - intros Hn.
    assert (Hpos : 0 < 2 ^ n) by (apply Z.pow_pos_nonneg; lia).
    split.
    + unfold EERef.shr_assign.
      rewrite (compound_run Shr r n (Z.shiftr v n)) by reflexivity.
      rewrite Z.shiftr_div_pow2 by lia.
      rewrite (u8_small (v / 2 ^ n)); [reflexivity|].
      unfold is_u8 in *. split; [apply Z.div_pos; lia|].
      apply Z.div_lt_upper_bound; nia.
    + intros H8. apply Z.div_small. unfold is_u8 in Hv.
      assert (2 ^ 8 <= 2 ^ n) by (apply Z.pow_le_mono_r; lia).
      change (2 ^ 8) with 256 in *. lia.
Qed.

(** [0xAA << 1] loses its top bit: [0x54]; [0xAA >> 9] is 0. *)
Lemma shift_assign_bytes_witness :
  let d := mkDevice (fun _ => 170) [] in
  is_u8 (cells d (EERef.cell_ptr (EERef.mk 6)))
  /\ 0 <= 1 <= 7
  /\ EERef.shl_assign (EERef.mk 6) 1 d =
       Done (EERef.mk 6, mkDevice (store (cells d) 6 84)
                                  [EvRead 6; EvWrite 6 84])
  /\ 0 <= 9 <= 15
  /\ EERef.shr_assign (EERef.mk 6) 9 d =
       Done (EERef.mk 6, mkDevice (store (cells d) 6 0)
                                  [EvRead 6; EvWrite 6 0]).
Proof.
  intros d.
  assert (Hv : is_u8 (cells d (EERef.cell_ptr (EERef.mk 6))))
    by (unfold is_u8; cbn; lia).
  assert (H1 : 0 <= 1 <= 7) by lia.
  assert (H9 : 0 <= 9 <= 15) by lia.
  split; [exact Hv|]. split; [exact H1|].
  split; [exact (proj1 (shift_assign_bytes (EERef.mk 6) 1 d Hv) H1)|].
  split; [exact H9|].
  exact (proj1 (proj2 (shift_assign_bytes (EERef.mk 6) 9 d Hv) H9)).
Defined.

(** ** Further properties of bits *)

Lemma bit_mask_small (i : Z) : 0 <= i <= 7 -> EEBit.bit_mask i = 2 ^ i.
Proof.
  intros H. rewrite <- (bit_mask_pow2 i H).
  rewrite (u8_small i) by (unfold is_u8; lia). reflexivity.
Qed.

Lemma bit_assign_run (r : EERef.t) (i : Z) (c : bool) (d : device) :
  0 <= i <= 7 ->
  let p := EERef.cell_ptr r in
  EEBit.assign (EEBit.mk r (2 ^ i)) c d =
  Done (EEBit.mk r (2 ^ i),
        mkDevice (store (cells d) p (with_bit (cells d p) i c))
                 (trace d ++ [EvRead p; EvWrite p (with_bit (cells d p) i c)])).
Proof.
  intros Hi p. unfold EEBit.assign, bind. cbn [EEBit.ref EEBit.mask].
  unfold EERef.or_assign, EERef.and_assign, with_bit. destruct c.
  - rewrite (compound_run Or r _ (Z.lor (cells d p) (2 ^ i))); reflexivity.
  - rewrite (compound_run And r _
               (Z.land (cells d p) (u8 (i16 (Z.lnot (2 ^ i))))));
      reflexivity.
Qed.

Lemma bit_to_bool_run (r : EERef.t) (i : Z) (d : device) :
  0 <= i <= 7 ->
  let p := EERef.cell_ptr r in
  EEBit.to_bool (EEBit.mk r (2 ^ i)) d =
  Done (Z.testbit (cells d p) i, mkDevice (cells d) (trace d ++ [EvRead p])).
Proof.
  intros Hi p. unfold EEBit.to_bool, EERef.to_uint8, bind.
  cbn [EEBit.ref EEBit.mask]. rewrite deref_run. unfold ret.
  rewrite mask_selects_bit by lia. reflexivity.
Qed.

Lemma with_bit_range (v i : Z) (b : bool) : is_u8 (with_bit v i b).
Proof. unfold with_bit. destruct b; apply u8_range. Qed.

Lemma with_bit_commute (v i j : Z) (b1 b2 : bool) :
  0 <= i -> 0 <= j -> i <> j ->
  with_bit (with_bit v i b1) j b2 = with_bit (with_bit v j b2) i b1.
Proof.
  intros Hi Hj Hne. apply byte_ext; try apply with_bit_range.
  intros k Hk. rewrite !with_bit_testbit by lia.
  destruct (Z.eqb_spec i k), (Z.eqb_spec j k); try reflexivity. lia.
Qed.

(** X7: writes of two different bits of one cell commute: [writeBit] of
    bit [i] and then of bit [j] leaves every cell holding what the two
    writes in the other order leave. *)
Theorem bit_writes_commute (ref : EERef.t) (i j : Z) (b1 b2 : bool) (d : device) :
  0 <= i <= 7 -> 0 <= j <= 7 -> i <> j ->
  exists d12 d21,
    (EEPROMClass.writeBit ref i b1 ;;; EEPROMClass.writeBit ref j b2) d =
      Done (tt, d12)
    /\ (EEPROMClass.writeBit ref j b2 ;;; EEPROMClass.writeBit ref i b1) d =
      Done (tt, d21)
    /\ forall q : Z, cells d12 q = cells d21 q.
Proof.
  intros Hi Hj Hne. do 2 eexists. split; [|split].
  - unfold bind at 1. rewrite (writeBit_run ref i b1 d Hi).
    apply (writeBit_run ref j b2 _ Hj).
  - unfold bind at 1. rewrite (writeBit_run ref j b2 d Hj).
    apply (writeBit_run ref i b1 _ Hi).
  - intros q. cbn [cells]. rewrite !store_same. unfold store.
    destruct (q =? EERef.cell_ptr ref); [|reflexivity].
    apply with_bit_commute; lia.
Qed.

(** Bit 0 and bit 7 of a cell holding [0x0F]. *)
Lemma bit_writes_commute_witness :
  let d := mkDevice (fun _ => 15) [] in
  0 <= 0 <= 7 /\ 0 <= 7 <= 7 /\ 0 <> 7
  /\ exists d12 d21,
      (EEPROMClass.writeBit (EERef.mk 1) 0 false ;;;
       EEPROMClass.writeBit (EERef.mk 1) 7 true) d = Done (tt, d12)
      /\ (EEPROMClass.writeBit (EERef.mk 1) 7 true ;;;
          EEPROMClass.writeBit (EERef.mk 1) 0 false) d = Done (tt, d21)
      /\ forall q : Z, cells d12 q = cells d21 q.
Proof.
  intros d.
  assert (H0 : 0 <= 0 <= 7) by lia.
  assert (H7 : 0 <= 7 <= 7) by lia.
  assert (Hne : 0 <> 7) by lia.
  split; [exact H0|]. split; [exact H7|]. split; [exact Hne|].
  exact (bit_writes_commute (EERef.mk 1) 0 7 false true d H0 H7 Hne).
Defined.

Lemma bit_mask_beyond_byte (i : Z) : 8 <= i <= 14 -> EEBit.bit_mask (u8 i) = 0.
Proof.
  intros H.
  assert (E : i = 8 \/ i = 9 \/ i = 10 \/ i = 11 \/ i = 12 \/ i = 13 \/ i = 14)
    by lia.
  destruct E as [->|[->|[->|[->|[->|[->| ->]]]]]]; reflexivity.
Qed.

(** X8: a bit index from 8 to 14 gives the mask 0, since [0x01 << bidx]
    has no bit left once converted to [uint8_t]: [readBit] is then false
    whatever the cell holds, and [writeBit], with true or with false,
    reads the cell and writes back the byte it held. *)
Theorem bit_index_beyond_byte (ref : EERef.t) (i : Z) (b : bool) (d : device) :
  let p := EERef.cell_ptr ref in
  let v := cells d p in
  8 <= i <= 14 -> is_u8 v ->
  EEBit.mask (EEPROMClass.readBit ref i) = 0
  /\ EEBit.to_bool (EEPROMClass.readBit ref i) d =
       Done (false, mkDevice (cells d) (trace d ++ [EvRead p]))
  /\ EEPROMClass.writeBit ref i b d =
       Done (tt, mkDevice (store (cells d) p v)
                          (trace d ++ [EvRead p; EvWrite p v])).
Proof.
  intros p v Hi Hv. split; [|split].
  - unfold EEPROMClass.readBit, EERef_bit, EEBit.make. cbn [EEBit.mask].
    apply bit_mask_beyond_byte. exact Hi.
  - unfold EEBit.to_bool, EEPROMClass.readBit, EERef_bit, EEBit.make,
      EERef.to_uint8, bind.
    cbn [EEBit.ref EEBit.mask]. rewrite (bit_mask_beyond_byte i Hi), deref_run.
    unfold ret. rewrite Z.land_0_r. reflexivity.
  - unfold EEPROMClass.writeBit, EEBit.assign, EERef_bit, EEBit.make, bind.
    cbn [EEBit.ref EEBit.mask]. rewrite (bit_mask_beyond_byte i Hi).
    unfold EERef.or_assign, EERef.and_assign. destruct b.
    + rewrite (compound_run Or _ _ v) by (cbn [eval_binop]; f_equal; apply Z.lor_0_r).
      unfold ret. rewrite (u8_small v Hv). reflexivity.
    + rewrite (compound_run And _ _ v).
      * unfold ret. rewrite (u8_small v Hv). reflexivity.
      * cbn [eval_binop]. f_equal.
        change (u8 (i16 (Z.lnot 0))) with (Z.ones 8).
        rewrite Z.land_ones by lia. apply (u8_small v Hv).
Qed.

(** Bit index 8 on a cell holding [0xFF]. *)
Lemma bit_index_beyond_byte_witness :
  let d := mkDevice (fun _ => 255) [] in
  8 <= 8 <= 14 /\ is_u8 (cells d (EERef.cell_ptr (EERef.mk 3)))
  /\ EEBit.to_bool (EEPROMClass.readBit (EERef.mk 3) 8) d =
       Done (false, mkDevice (cells d) [EvRead 3])
  /\ EEPROMClass.writeBit (EERef.mk 3) 8 false d =
       Done (tt, mkDevice (store (cells d) 3 255) [EvRead 3; EvWrite 3 255]).
Proof.
  intros d.
  assert (Hi : 8 <= 8 <= 14) by lia.
  assert (Hv : is_u8 (cells d (EERef.cell_ptr (EERef.mk 3))))
    by (unfold is_u8; cbn; lia).
  destruct (bit_index_beyond_byte (EERef.mk 3) 8 false d Hi Hv) as (_ & Hr & Hw).
  split; [exact Hi|]. split; [exact Hv|]. split; [exact Hr | exact Hw].
Defined.

(** X9: assignment of one bit reference to another, both built by the
    constructor with bit indices in [0,7], reads the source cell, then
    reads and writes the destination cell; the destination bit then is
    what the source bit was, and the source bit is what it was, also when
    both are in the same cell. *)
Theorem bit_copy_assign (a1 a2 i j : Z) (d : device) :
  0 <= i <= 7 -> 0 <= j <= 7 ->
  exists d1 nv,
    EEBit.assign_bit (EEBit.make a1 i) (EEBit.make a2 j) d =
      Done (EEBit.make a1 i, d1)
    /\ trace d1 = trace d ++ [EvRead (u16 a2); EvRead (u16 a1);
                              EvWrite (u16 a1) nv]
    /\ Z.testbit (peek d1 a1) i = Z.testbit (peek d a2) j
    /\ Z.testbit (peek d1 a2) j = Z.testbit (peek d a2) j.
Proof.
  intros Hi Hj. unfold EEBit.make.
  rewrite (bit_mask_small i Hi), (bit_mask_small j Hj).
  do 2 eexists. split; [|split; [|split]].
  - unfold EEBit.assign_bit, bind.
    rewrite (bit_to_bool_run (EERef.mk a2) j d Hj).
    rewrite (bit_assign_run (EERef.mk a1) i _ _ Hi).
    cbn [cells trace]. rewrite <- app_assoc. reflexivity.
  - reflexivity.
  - unfold peek, EERef.cell_ptr. cbn [cells EERef.index].
    rewrite store_same, with_bit_testbit, Z.eqb_refl by lia. reflexivity.
  - unfold peek, EERef.cell_ptr. cbn [cells EERef.index]. unfold store.
    destruct (Z.eqb_spec (u16 a2) (u16 a1)) as [E|E]; [|reflexivity].
    rewrite with_bit_testbit by lia. rewrite E.
    destruct (Z.eqb_spec i j) as [->|Hne]; reflexivity.
Qed.

(** Bit 1 of cell 4 is copied to bit 6 of the same cell. *)
Lemma bit_copy_assign_witness :
  let d := mkDevice (fun _ => 2) [] in
  0 <= 6 <= 7 /\ 0 <= 1 <= 7
  /\ exists d1 nv,
      EEBit.assign_bit (EEBit.make 4 6) (EEBit.make 4 1) d =
        Done (EEBit.make 4 6, d1)
      /\ trace d1 = [EvRead 4; EvRead 4; EvWrite 4 nv]
      /\ Z.testbit (peek d1 4) 6 = true
      /\ Z.testbit (peek d1 4) 1 = true.
Proof.
  intros d.
  assert (H6 : 0 <= 6 <= 7) by lia.
  assert (H1 : 0 <= 1 <= 7) by lia.
  split; [exact H6|]. split; [exact H1|].
  exact (bit_copy_assign 4 4 6 1 d H6 H1).
Defined.

(** X10: a bit reference moved by [setIndex] to a bit index in [0,7]
    keeps its cell; [set()] on it leaves that bit 1 and [clear()] after
    it leaves the bit 0, each returning the reference, and every other
    bit of the byte is as it was before the two. *)
Theorem setIndex_set_clear (b : EEBit.t) (i : Z) (d : device) :
  0 <= i <= 7 ->
  let b' := EEBit.setIndex b i in
  let p := EERef.cell_ptr (EEBit.ref b) in
  EEBit.ref b' = EEBit.ref b
  /\ EEBit.mask b' = 2 ^ i
  /\ exists d1 d2,
      EEBit.set b' d = Done (b', d1)
      /\ Z.testbit (cells d1 p) i = true
      /\ EEBit.clear b' d1 = Done (b', d2)
      /\ Z.testbit (cells d2 p) i = false
      /\ forall k : Z, 0 <= k <= 7 -> k <> i ->
           Z.testbit (cells d2 p) k = Z.testbit (cells d p) k.
Proof.
  intros Hi b' p. split; [reflexivity|].
  split; [apply (bit_mask_small i Hi)|].
  unfold b', EEBit.setIndex, EEBit.set, EEBit.clear.
  rewrite (bit_mask_small i Hi).
  do 2 eexists. split; [apply (bit_assign_run (EEBit.ref b) i true d Hi)|].
  cbn [cells]. fold p.
  split; [rewrite store_same, with_bit_testbit, Z.eqb_refl by lia; reflexivity|].
  split; [apply (bit_assign_run (EEBit.ref b) i false _ Hi)|].
  cbn [cells]. fold p. rewrite !store_same. split.
  - rewrite with_bit_testbit, Z.eqb_refl by lia. reflexivity.
  - intros k Hk Hne. rewrite !with_bit_testbit by lia.
    destruct (Z.eqb_spec i k); [congruence | reflexivity].
Qed.

(** The reference to bit 0 of cell 9 moved to bit 5. *)
Lemma setIndex_set_clear_witness :
  let d := mkDevice (fun _ => 0) [] in
  0 <= 5 <= 7
  /\ EEBit.mask (EEBit.setIndex (EEBit.make 9 0) 5) = 32
  /\ exists d1 d2,
      EEBit.set (EEBit.setIndex (EEBit.make 9 0) 5) d =
        Done (EEBit.setIndex (EEBit.make 9 0) 5, d1)
      /\ Z.testbit (cells d1 9) 5 = true
      /\ EEBit.clear (EEBit.setIndex (EEBit.make 9 0) 5) d1 =
        Done (EEBit.setIndex (EEBit.make 9 0) 5, d2)
      /\ Z.testbit (cells d2 9) 5 = false
      /\ forall k : Z, 0 <= k <= 7 -> k <> 5 ->
           Z.testbit (cells d2 9) k = Z.testbit (cells d 9) k.
Proof.
  intros d.
  assert (H5 : 0 <= 5 <= 7) by lia.
  split; [exact H5|].
  destruct (setIndex_set_clear (EEBit.make 9 0) 5 d H5) as (_ & Hm & Hrest).
  split; [exact Hm | exact Hrest].
Defined.

(** ** Further properties of cursors *)

Lemma iter_pre_incr (n : nat) (k : Z) :
  -32768 <= k -> k + Z.of_nat n < 32768 ->
  Nat.iter n EEPtr.pre_incr (EEPtr.mk k) = EEPtr.mk (k + Z.of_nat n).
Proof.
  intros Hk. induction n as [|n IH]; intros Hn.
  - change (Z.of_nat 0) with 0. unfold Nat.iter. cbn [nat_rect]. f_equal. lia.
  - rewrite Nat.iter_succ, IH by lia. rewrite ptr_incr_small by lia.
    f_equal. lia.
Qed.

Lemma iter_pre_decr (n : nat) (k : Z) :
  k < 32768 -> -32768 <= k - Z.of_nat n ->
  Nat.iter n EEPtr.pre_decr (EEPtr.mk k) = EEPtr.mk (k - Z.of_nat n).
Proof.
  intros Hk. induction n as [|n IH]; intros Hn.
  - change (Z.of_nat 0) with 0. unfold Nat.iter. cbn [nat_rect]. f_equal. lia.
  - rewrite Nat.iter_succ, IH by lia. unfold EEPtr.pre_decr.
    cbn [EEPtr.index]. rewrite i16_small by lia. f_equal. lia.
Qed.

(** X11: for a pointer and a displacement that stay within [int],
    [ptr -= idx] undoes [ptr += idx]; [ptr[idx]] is the cell [ptr += idx]
    points at; and for a displacement [n >= 0], [n] prefix increments
    move the pointer as [+= n] does, and [n] prefix decrements move it
    back. *)
Theorem pointer_displacement (k idx : Z) (n : nat) :
  -32768 <= k < 32768 -> -32768 <= k + idx < 32768 ->
  let p := EEPtr.mk k in
  EEPtr.add_assign p idx = EEPtr.mk (k + idx)
  /\ EEPtr.sub_assign (EEPtr.add_assign p idx) idx = p
  /\ EEPtr.at_ p idx = EEPtr.deref (EEPtr.add_assign p idx)
  /\ (idx = Z.of_nat n ->
      Nat.iter n EEPtr.pre_incr p = EEPtr.add_assign p idx
      /\ Nat.iter n EEPtr.pre_decr (EEPtr.add_assign p idx) = p).
Proof.
  intros Hk Hidx p.
  assert (Hadd : EEPtr.add_assign p idx = EEPtr.mk (k + idx)).
  { unfold EEPtr.add_assign, p. cbn [EEPtr.index].
    rewrite i16_small by lia. reflexivity. }
  split; [exact Hadd|]. split; [|split].
  - rewrite Hadd. unfold EEPtr.sub_assign, p. cbn [EEPtr.index].
    replace (k + idx - idx) with k by ring.
    rewrite i16_small by lia. reflexivity.
  - reflexivity.
  - intros ->. rewrite Hadd. unfold p. split.
    + apply iter_pre_incr; lia.
    + rewrite iter_pre_decr by lia. f_equal. lia.
Qed.

(** The pointer at 510 moved by 2, step by step and at once. *)
Lemma pointer_displacement_witness :
  -32768 <= 510 < 32768 /\ -32768 <= 510 + 2 < 32768
  /\ 2 = Z.of_nat 2
  /\ EEPtr.pre_incr (EEPtr.pre_incr (EEPtr.mk 510)) =
       EEPtr.add_assign (EEPtr.mk 510) 2
  /\ EEPtr.sub_assign (EEPtr.add_assign (EEPtr.mk 510) 2) 2 = EEPtr.mk 510.
Proof.
  assert (Hk : -32768 <= 510 < 32768) by lia.
  assert (Hidx : -32768 <= 510 + 2 < 32768) by lia.
  assert (Hn : 2 = Z.of_nat 2) by reflexivity.
  destruct (pointer_displacement 510 2 2 Hk Hidx) as (_ & Hsub & _ & Hiter).
  split; [exact Hk|]. split; [exact Hidx|]. split; [exact Hn|].
  split; [exact (proj1 (Hiter Hn)) | exact Hsub].
Defined.

(** ** Further properties of [get] and [put] *)

(** X12: [put] of an object (of at most 32767 bytes) right after a [put]
    of the same object at the same pointer issues no physical write: it
    is [sizeof(T)] reads, and the storage is as the first [put] left
    it. *)
Theorem put_again_is_free (ptr : EEPtr.t) (x : list Z) (d : device) :
  Z.of_nat (length x) <= 32767 ->
  exists d1,
    EEPROMClass.put ptr x d = Done (x, d1)
    /\ EEPROMClass.put ptr x d1 =
       Done (x, mkDevice (cells d1)
                         (trace d1 ++ map EvRead (cells_from ptr (length x))))
    /\ writes (trace d1 ++ map EvRead (cells_from ptr (length x))) =
       writes (trace d1).
Proof.
  intros Hsize.
  destruct (put_loop_run x ptr d) as (d1 & Hput & Hmap & _).
  { apply cells_from_NoDup. lia. }
  exists d1. split; [|split].
  - unfold EEPROMClass.put, bind. rewrite Hput. reflexivity.
  - unfold EEPROMClass.put, bind. rewrite (put_loop_noop x ptr d1 Hmap).
    reflexivity.
  - rewrite writes_app, writes_of_reads. apply app_nil_r.
Qed.

(** A three-byte object put twice at cell 0 of a blank device. *)
Lemma put_again_is_free_witness :
  let d := mkDevice (fun _ => 255) [] in
  Z.of_nat (length [1; 2; 3]) <= 32767
  /\ exists d1,
      EEPROMClass.put (EEPtr.mk 0) [1; 2; 3] d = Done ([1; 2; 3], d1)
      /\ EEPROMClass.put (EEPtr.mk 0) [1; 2; 3] d1 =
         Done ([1; 2; 3],
               mkDevice (cells d1)
                        (trace d1 ++ [EvRead 0; EvRead 1; EvRead 2])).
Proof.
  intros d.
  assert (Hsize : Z.of_nat (length [1; 2; 3]) <= 32767) by (cbn; lia).
  split; [exact Hsize|].
  destruct (put_again_is_free (EEPtr.mk 0) [1; 2; 3] d Hsize)
    as (d1 & Hput & Hagain & _).
  exists d1. split; [exact Hput | exact Hagain].
Defined.

(** The block of [m] cells that starts where a block of [n] cells ends
    shares no cell with it, as long as both fit the address space. *)
Lemma blocks_disjoint (ptr : EEPtr.t) (n m : nat) (q : Z) :
  Z.of_nat n + Z.of_nat m <= 65536 ->
  In q (cells_from ptr n) ->
  ~ In q (cells_from (EEPtr.add_assign ptr (Z.of_nat n)) m).
Proof.
  intros Hsize H1 H2. rewrite cells_from_ascending in H1, H2.
  apply in_map_iff in H1, H2.
  destruct H1 as (j1 & E1 & Hj1). destruct H2 as (j2 & E2 & Hj2).
  apply in_seq in Hj1, Hj2.
  unfold EEPtr.add_assign in E2. cbn [EEPtr.index] in E2.
  rewrite u16_i16_add in E2.
  replace (EEPtr.index ptr + Z.of_nat n + Z.of_nat j2)
    with (EEPtr.index ptr + (Z.of_nat n + Z.of_nat j2)) in E2 by ring.
  assert (E : (q - EEPtr.index ptr) mod 65536 = Z.of_nat j1)
    by (rewrite <- E1; apply u16_offset_inv; lia).
  rewrite <- E2, u16_offset_inv in E by lia. lia.
Qed.

(** X13: two objects put one right after the other, the second at
    [ptr += sizeof] of the first, do not disturb each other: [get] at the
    two pointers returns the two objects (both together of at most 32767
    bytes). *)
Theorem objects_side_by_side
    (ptr : EEPtr.t) (x y x' y' : list Z) (d : device) :
  length x' = length x -> length y' = length y ->
  Z.of_nat (length x) + Z.of_nat (length y) <= 32767 ->
  let ptr2 := EEPtr.add_assign ptr (Z.of_nat (length x)) in
  exists d1 d2 d3 d4,
    EEPROMClass.put ptr x d = Done (x, d1)
    /\ EEPROMClass.put ptr2 y d1 = Done (y, d2)
    /\ EEPROMClass.get ptr x' d2 = Done (x, d3)
    /\ EEPROMClass.get ptr2 y' d3 = Done (y, d4).
Proof.
  intros Hx Hy Hsize ptr2.
  destruct (put_loop_run x ptr d) as (d1 & Hput1 & Hmap1 & _).
  { apply cells_from_NoDup. lia. }
  destruct (put_loop_run y ptr2 d1) as (d2 & Hput2 & Hmap2 & Hframe2 & _).
  { apply cells_from_NoDup. lia. }
  exists d1, d2. do 2 eexists. split; [|split; [|split]].
  - unfold EEPROMClass.put, bind. rewrite Hput1. reflexivity.
  - unfold EEPROMClass.put, bind. rewrite Hput2. reflexivity.
  - unfold EEPROMClass.get. rewrite get_loop_run, Hx.
    rewrite (map_ext_in (cells d2) (cells d1)); [rewrite Hmap1; reflexivity|].
    intros q Hq. apply Hframe2. apply blocks_disjoint; [lia | exact Hq].
  - unfold EEPROMClass.get. rewrite get_loop_run, Hy. cbn [cells].
    rewrite Hmap2. reflexivity.
Qed.

(** A two-byte and a three-byte object stored from cell 100 on. *)
Lemma objects_side_by_side_witness :
  let d := mkDevice (fun _ => 255) [] in
  let x := [170; 85] in
  let y := [1; 2; 3] in
  length [0; 0] = length x /\ length [0; 0; 0] = length y
  /\ Z.of_nat (length x) + Z.of_nat (length y) <= 32767
  /\ exists d1 d2 d3 d4,
      EEPROMClass.put (EEPtr.mk 100) x d = Done (x, d1)
      /\ EEPROMClass.put (EEPtr.mk 102) y d1 = Done (y, d2)
      /\ EEPROMClass.get (EEPtr.mk 100) [0; 0] d2 = Done (x, d3)
      /\ EEPROMClass.get (EEPtr.mk 102) [0; 0; 0] d3 = Done (y, d4).
Proof.
  intros d x y.
  assert (Hx : length [0; 0] = length x) by reflexivity.
  assert (Hy : length [0; 0; 0] = length y) by reflexivity.
  assert (Hsize : Z.of_nat (length x) + Z.of_nat (length y) <= 32767)
    by (cbn; lia).
  split; [exact Hx|]. split; [exact Hy|]. split; [exact Hsize|].
  exact (objects_side_by_side (EEPtr.mk 100) x y [0; 0] [0; 0; 0] d Hx Hy Hsize).
Defined.

Lemma update_cost (r : EERef.t) (b : Z) (d : device) :
  exists d1,
    EERef.update r b d = Done (r, d1)
    /\ reads (trace d1) = reads (trace d) ++ [EvRead (EERef.cell_ptr r)]
    /\ (length (writes (trace d1)) <= S (length (writes (trace d))))%nat.
Proof.
  destruct (Z.eq_dec (cells d (EERef.cell_ptr r)) b) as [E|E].
  - eexists. split; [apply update_run_same; exact E|]. cbn [trace]. split.
    + rewrite reads_app. reflexivity.
    + rewrite writes_app, length_app. cbn. lia.
  - eexists. split; [apply update_run_diff; exact E|]. cbn [trace]. split.
    + rewrite reads_app. reflexivity.
    + rewrite writes_app, length_app. cbn. lia.
Qed.

Lemma put_loop_cost (src : list Z) :
  forall (ptr : EEPtr.t) (d : device),
  exists d1,
    EEPROMClass.put_loop ptr src d = Done (tt, d1)
    /\ reads (trace d1) =
       reads (trace d) ++ map EvRead (cells_from ptr (length src))
    /\ (length (writes (trace d1)) <=
        length (writes (trace d)) + length src)%nat.
Proof.
  induction src as [|b src IH]; intros ptr d.
  - exists d. cbn. rewrite app_nil_r. split; [reflexivity|]. split; [reflexivity | lia].
  - destruct (update_cost (EEPtr.deref ptr) b d) as (d' & Hrun & Hr & Hw).
    destruct (IH (EEPtr.pre_incr ptr) d') as (d1 & Hrun1 & Hr1 & Hw1).
    exists d1. split; [|split].
    + cbn [EEPROMClass.put_loop]. unfold bind. rewrite Hrun. exact Hrun1.
    + rewrite Hr1, Hr. cbn [length cells_from map].
      rewrite <- app_assoc. reflexivity.
    + cbn [length]. lia.
Qed.

(** X14: [put] of an object of any size returns the object after exactly
    one read of each of the [sizeof(T)] cells from [ptr] on, in ascending
    order, and at most [sizeof(T)] physical writes. *)
Theorem put_cost (ptr : EEPtr.t) (x : list Z) (d : device) :
  exists d1,
    EEPROMClass.put ptr x d = Done (x, d1)
    /\ reads (trace d1) =
       reads (trace d) ++
       map (fun j => EvRead (u16 (EEPtr.index ptr + Z.of_nat j)))
           (seq 0 (length x))
    /\ (length (writes (trace d1)) <=
        length (writes (trace d)) + length x)%nat.
Proof.
  destruct (put_loop_cost x ptr d) as (d1 & Hrun & Hr & Hw).
  exists d1. split; [|split].
  - unfold EEPROMClass.put, bind. rewrite Hrun. reflexivity.
  - rewrite Hr, cells_from_ascending, map_map. reflexivity.
  - exact Hw.
Qed.
